(** * menuentry: the desktop-entry codec and store

    A shallow embedding of [src/menuentry/desktop_file.py] and of the
    delete action of [src/menuentry/app.py], with the properties of the
    specification stated over it.

    - [PyStr]: the built-in string methods the program calls.  A Python
      [str] is modelled as a [string] whose characters are the code points
      U+0000 .. U+00FF; whitespace, line boundaries and [lower] are those of
      CPython on that range.
    - [DesktopEntry]: the dataclass, [from_string] and [to_string].
    - [Path]: [pathlib.PurePosixPath], as far as the program uses it.
    - [OS]: the file system as a state, and the operations on it as
      computations that may raise.
    - [Store]: [get_all_desktop_files], [load_all_entries], [from_file] and
      [save].
    - [App]: [MenuEntryApp.action_delete].
    - [Spec], [Examples]: the vocabulary of the specification and sample
      inputs.

    The modules after these hold the proofs. *)

From Stdlib Require Import Ascii String List Bool Arith NArith Lia Sorting.Sorted Sorting.Permutation.
From stdpp Require Import base option gmap list strings sorting.

Local Open Scope char_scope.

(** ** Python string built-ins *)
Module PyStr.

Definition LF : ascii := "010".
Definition CR : ascii := "013".

(** [str.isspace] on one character: the set [strip()] and [split()] use. *)
Definition is_space (c : ascii) : bool :=
  match c with
  | "009" | "010" | "011" | "012" | "013"
  | "028" | "029" | "030" | "031" | " "
  | "133" | "160" => true
  | _ => false
  end.

(** The line boundaries of [str.splitlines]. *)
Definition is_linebreak (c : ascii) : bool :=
  match c with
  | "010" | "011" | "012" | "013"
  | "028" | "029" | "030" | "133" => true
  | _ => false
  end.

(** [bool(s)]: a string is truthy when it is not empty. *)
Definition truthy (s : string) : bool :=
  match s with EmptyString => false | String _ _ => true end.

Fixpoint lstrip (s : string) : string :=
  match s with
  | EmptyString => EmptyString
  | String c s' => if is_space c then lstrip s' else s
  end.

Fixpoint rstrip (s : string) : string :=
  match s with
  | EmptyString => EmptyString
  | String c s' =>
      match rstrip s' with
      | EmptyString => if is_space c then EmptyString else String c EmptyString
      | r => String c r
      end
  end.

(** [s.strip()] *)
Definition strip (s : string) : string := rstrip (lstrip s).

(** [s.startswith(p)] *)
Definition startswith (p s : string) : bool := String.prefix p s.

(** [s.endswith(p)] *)
Fixpoint endswith (p s : string) : bool :=
  String.eqb p s ||
  match s with
  | EmptyString => false
  | String _ s' => endswith p s'
  end.

(** [sub in s] *)
Fixpoint contains (sub s : string) : bool :=
  String.prefix sub s ||
  match s with
  | EmptyString => false
  | String _ s' => contains sub s'
  end.

(** [c in s] for a one-character string [c]. *)
Fixpoint has_char (c : ascii) (s : string) : bool :=
  match s with
  | EmptyString => false
  | String d s' => Ascii.eqb c d || has_char c s'
  end.

(** [s.partition(c)] for a one-character separator: the text before the
    first occurrence, the separator found (empty when there is none) and
    the text after it. *)
Fixpoint partition (c : ascii) (s : string) : string * string * string :=
  match s with
  | EmptyString => (EmptyString, EmptyString, EmptyString)
  | String d s' =>
      if Ascii.eqb c d then (EmptyString, String c EmptyString, s')
      else let '(k, sep, v) := partition c s' in (String d k, sep, v)
  end.

(** The fields of [s] between the characters satisfying [p]: the first
    field and the list of the others. *)
Fixpoint fields (p : ascii -> bool) (s : string) : string * list string :=
  match s with
  | EmptyString => (EmptyString, [])
  | String c s' =>
      let '(f, fs) := fields p s' in
      if p c then (EmptyString, f :: fs) else (String c f, fs)
  end.

Definition fields_list (p : ascii -> bool) (s : string) : list string :=
  let '(f, fs) := fields p s in f :: fs.

(** [s.split(c)] for a one-character separator. *)
Definition split_on (c : ascii) (s : string) : list string :=
  fields_list (Ascii.eqb c) s.

(** [s.split()]: the maximal runs of characters that are not whitespace. *)
Definition split (s : string) : list string :=
  List.filter truthy (fields_list is_space s).

(** The segments of [s] between line boundaries; a carriage return
    followed by a line feed is one boundary. *)
Fixpoint line_fields (s : string) : string * list string :=
  match s with
  | EmptyString => (EmptyString, [])
  | String c s' =>
      if is_linebreak c then
        match s' with
        | String d s'' =>
            if Ascii.eqb c CR && Ascii.eqb d LF
            then let '(f, fs) := line_fields s'' in (EmptyString, f :: fs)
            else let '(f, fs) := line_fields s' in (EmptyString, f :: fs)
        | EmptyString => (EmptyString, [EmptyString])
        end
      else let '(f, fs) := line_fields s' in (String c f, fs)
  end.

(** The last segment is not a line when it is empty. *)
Fixpoint drop_last_empty (l : list string) : list string :=
  match l with
  | [] => []
  | [x] => if truthy x then [x] else []
  | x :: l' => x :: drop_last_empty l'
  end.

Definition lines_list (s : string) : list string :=
  let '(f, fs) := line_fields s in f :: fs.

(** [s.splitlines()] *)
Definition splitlines (s : string) : list string :=
  drop_last_empty (lines_list s).

(** [sep.join(l)] *)
Definition join (sep : string) (l : list string) : string := String.concat sep l.

(** [str.lower] on one character. *)
Definition lower_char (c : ascii) : ascii :=
  let n := N_of_ascii c in
  if ((65 <=? n) && (n <=? 90) || (192 <=? n) && (n <=? 222) && negb (n =? 215))%N
  then ascii_of_N (n + 32) else c.

Fixpoint lower (s : string) : string :=
  match s with
  | EmptyString => EmptyString
  | String c s' => String (lower_char c) (lower s')
  end.

(** [s.replace(a, b)] for one-character [a] and [b]. *)
Fixpoint replace (a b : ascii) (s : string) : string :=
  match s with
  | EmptyString => EmptyString
  | String c s' => String (if Ascii.eqb c a then b else c) (replace a b s')
  end.

(** [s[n:]] *)
Fixpoint slice_from (n : nat) (s : string) : string :=
  match n, s with
  | O, _ => s
  | S n', String _ s' => slice_from n' s'
  | S _, EmptyString => EmptyString
  end.

End PyStr.

Local Close Scope char_scope.

(** ** The entry record and its codec ([desktop_file.py]) *)
Module DesktopEntry.
Import PyStr.

(** The dataclass [DesktopEntry]. *)
Record t : Type := mk {
  name : string;
  exec : string;
  entry_type : string;
  comment : string;
  icon : string;
  path : string;
  terminal : bool;
  categories : string;
  keywords : string;
  url : string;
  mime_type : string;
  hidden : bool;
  env_vars : string;
  startup_wm_class : string;
  file_path : option string
}.

(** [self.file_path = fp] *)
Definition set_file_path (self : t) (fp : option string) : t :=
  mk (name self) (exec self) (entry_type self) (comment self) (icon self)
     (path self) (terminal self) (categories self) (keywords self) (url self)
     (mime_type self) (hidden self) (env_vars self) (startup_wm_class self) fp.

(** [data.get(key, default)] *)
Definition get (data : gmap string string) (key default : string) : string :=
  match data !! key with Some v => v | None => default end.

(** One turn of the loop over [content.splitlines()]: the state is the
    dictionary [data] and the flag [in_desktop_entry]. *)
Definition scan_line (st : gmap string string * bool) (raw : string)
  : gmap string string * bool :=
  let '(data, in_desktop_entry) := st in
  let line := strip raw in
  if negb (truthy line) || startswith "#" line then st
  else if startswith "[" line && endswith "]" line then
    (data, String.eqb line "[Desktop Entry]")
  else if in_desktop_entry && has_char "=" line then
    let '(key, _, value) := partition "=" line in
    (<[strip key := strip value]> data, in_desktop_entry)
  else st.

(** The dictionary the loop leaves behind. *)
Definition scan (content : string) : gmap string string :=
  fst (foldl scan_line (∅, false) (splitlines content)).

(** The [for i, part in enumerate(parts)] loop: the index of the first
    part without an [=], or [0] when the loop runs to its end. *)
Fixpoint cmd_start_from (i : nat) (parts : list string) : nat :=
  match parts with
  | [] => 0
  | part :: rest =>
      if negb (has_char "=" part) then i else cmd_start_from (S i) rest
  end.

Definition cmd_start_idx (parts : list string) : nat := cmd_start_from 0 parts.

(** The unwrapping of [Exec] when [X-Env-Vars] is set. *)
Definition unwrap_exec (env_vars exec_cmd : string) : string :=
  if truthy env_vars && startswith "env " exec_cmd then
    let after_env := slice_from 4 exec_cmd in
    let parts := split after_env in
    join " " (drop (cmd_start_idx parts) parts)
  else exec_cmd.

(** [DesktopEntry.from_string] *)
Definition from_string (content : string) (file_path : option string) : t :=
  let data := scan content in
  let env_vars := get data "X-Env-Vars" "" in
  let exec_cmd := get data "Exec" "" in
  let exec_cmd := unwrap_exec env_vars exec_cmd in
  {| name := get data "Name" "Unnamed";
     exec := exec_cmd;
     entry_type := get data "Type" "Application";
     comment := get data "Comment" "";
     icon := get data "Icon" "";
     path := get data "Path" "";
     terminal := String.eqb (lower (get data "Terminal" "")) "true";
     categories := get data "Categories" "";
     keywords := get data "Keywords" "";
     url := get data "URL" "";
     mime_type := get data "MimeType" "";
     hidden := String.eqb (lower (get data "Hidden" "")) "true";
     env_vars := env_vars;
     startup_wm_class := get data "StartupWMClass" "";
     file_path := file_path |}.

(** [[p.strip() for p in self.env_vars.split(";") if p.strip()]] *)
Definition env_parts (env_vars : string) : list string :=
  List.filter truthy (List.map strip (split_on ";" env_vars)).

Definition bool_str (b : bool) : string := if b then "true" else "false".

(** The list [lines] as [to_string] builds it, one [append] after the
    other. *)
Definition to_lines (self : t) : list string :=
  let lines := ["[Desktop Entry]"] in
  let lines := lines ++ ["Type=" +:+ entry_type self] in
  let lines := lines ++ ["Name=" +:+ name self] in
  let lines := if truthy (comment self)
               then lines ++ ["Comment=" +:+ comment self] else lines in
  let lines := if truthy (icon self)
               then lines ++ ["Icon=" +:+ icon self] else lines in
  let lines :=
    if truthy (exec self) then
      if truthy (env_vars self) then
        let parts := env_parts (env_vars self) in
        match parts with
        | _ :: _ => lines ++ ["Exec=env " +:+ join " " parts +:+ " " +:+ exec self]
        | [] => lines ++ ["Exec=" +:+ exec self]
        end
      else lines ++ ["Exec=" +:+ exec self]
    else lines in
  let lines := if truthy (path self)
               then lines ++ ["Path=" +:+ path self] else lines in
  let lines := lines ++ ["Terminal=" +:+ bool_str (terminal self)] in
  let lines := if truthy (categories self)
               then lines ++ ["Categories=" +:+ categories self] else lines in
  let lines := if truthy (keywords self)
               then lines ++ ["Keywords=" +:+ keywords self] else lines in
  let lines := if truthy (url self)
               then lines ++ ["URL=" +:+ url self] else lines in
  let lines := if truthy (mime_type self)
               then lines ++ ["MimeType=" +:+ mime_type self] else lines in
  let lines := if truthy (startup_wm_class self)
               then lines ++ ["StartupWMClass=" +:+ startup_wm_class self] else lines in
  let lines := lines ++ ["Hidden=" +:+ bool_str (hidden self)] in
  let lines := if truthy (env_vars self)
               then lines ++ ["X-Env-Vars=" +:+ env_vars self] else lines in
  lines.

(** [DesktopEntry.to_string] *)
Definition to_string (self : t) : string :=
  join (String LF "") (to_lines self) +:+ String LF "".

End DesktopEntry.

(** ** Paths ([pathlib.PurePosixPath]) *)
Module Path.
Import PyStr.

(** A path is its root ([""] when relative, ["/"] or ["//"]) and its
    components. *)
Record t : Type := mk { root : string; parts : list string }.

#[global] Instance eq_dec : EqDecision t.
Proof. solve_decision. Defined.

Definition is_part (c : string) : bool :=
  truthy c && negb (String.eqb c ".").

(** The root of a path text: two leading slashes are kept, three or more
    are one. *)
Definition root_of (s : string) : string :=
  if startswith "///" s then "/"
  else if startswith "//" s then "//"
  else if startswith "/" s then "/"
  else "".

(** [Path(s)]: empty components and ["."] are dropped. *)
Definition of_string (s : string) : t :=
  {| root := root_of s; parts := List.filter is_part (split_on "/" s) |}.

(** [str(p)] *)
Definition to_string (p : t) : string :=
  match root p, parts p with
  | EmptyString, [] => "."
  | r, ps => r +:+ join "/" ps
  end.

(** [p / s]: an absolute [s] replaces [p]. *)
Definition joinpath (p : t) (s : string) : t :=
  let q := of_string s in
  if truthy (root q) then q
  else {| root := root p; parts := parts p ++ parts q |}.

(** [p.name] *)
Definition name (p : t) : string := List.last (parts p) "".

(** [p.parent] *)
Definition parent (p : t) : t :=
  {| root := root p; parts := List.removelast (parts p) |}.

End Path.

Notation "p // s" := (Path.joinpath p s) (at level 40, left associativity).

(** ** The file system and the exceptions of its operations *)
Module OS.
Import PyStr.

Inductive exn : Type :=
| FileNotFoundError
| PermissionError
| UnicodeDecodeError.

Inductive result (A : Type) : Type :=
| Ok (a : A)
| Raise (e : exn).
Arguments Ok {A} a.
Arguments Raise {A} e.

(** What a directory entry holds: text, or something [read_text] cannot
    return (bytes that do not decode, a directory, a file the process may
    not read). *)
Inductive file_data : Type :=
| Text (content : string)
| Unreadable (why : exn).

(** The file system: the home directory of the user, the directories that
    exist, the directories the process may not change, and the directory
    entries in the order the system enumerates them. *)
Record FS : Type := mkFS {
  home : Path.t;
  dirs : list Path.t;
  readonly : list Path.t;
  files : list (Path.t * file_data)
}.

(** A computation that reads and changes the file system and may raise. *)
Definition IO (A : Type) : Type := FS -> result A * FS.

#[global] Instance IO_ret : MRet IO := fun A a fs => (Ok a, fs).
#[global] Instance IO_bind : MBind IO := fun A B k m fs =>
  match m fs with
  | (Ok a, fs') => k a fs'
  | (Raise e, fs') => (Raise e, fs')
  end.

(** [try: body  except Exception: handler] *)
Definition try_except {A : Type} (body : IO A) (handler : exn -> IO A) : IO A :=
  fun fs =>
    match body fs with
    | (Ok a, fs') => (Ok a, fs')
    | (Raise e, fs') => handler e fs'
    end.

Definition lookup_file (p : Path.t) (fs : FS) : option file_data :=
  snd <$> List.find (fun x => bool_decide (fst x = p)) (files fs).

(** [p.exists()]; taken not to raise. *)
Definition exists_ (p : Path.t) : IO bool := fun fs =>
  (Ok (bool_decide (p ∈ dirs fs) || bool_decide (is_Some (lookup_file p fs))), fs).

(** [d.glob("*" + suffix)]: the entries of [d] whose name ends with
    [suffix], in the order of the file system; [glob] passes over what it
    may not read and does not raise. *)
Definition glob (d : Path.t) (suffix : string) : IO (list Path.t) := fun fs =>
  (Ok (List.filter
         (fun p => bool_decide (Path.parent p = d) && endswith suffix (Path.name p))
         (List.map fst (files fs))), fs).

(** [p.read_text()] *)
Definition read_text (p : Path.t) : IO string := fun fs =>
  match lookup_file p fs with
  | Some (Text content) => (Ok content, fs)
  | Some (Unreadable e) => (Raise e, fs)
  | None => (Raise FileNotFoundError, fs)
  end.

(** The directory and the directories above it. *)
Definition ancestors (d : Path.t) : list Path.t :=
  List.map (fun n => Path.mk (Path.root d) (take n (Path.parts d)))
           (seq 0 (S (length (Path.parts d)))).

(** [d.mkdir(parents=True, exist_ok=True)]; a refusal of the system shows
    in the [write_text] that follows. *)
Definition mkdir_parents (d : Path.t) : IO unit := fun fs =>
  (Ok tt, mkFS (home fs)
               (dirs fs ++ List.filter (fun a => negb (bool_decide (a ∈ dirs fs))) (ancestors d))
               (readonly fs) (files fs)).

Fixpoint replace_file (p : Path.t) (c : file_data) (l : list (Path.t * file_data))
  : list (Path.t * file_data) :=
  match l with
  | [] => [(p, c)]
  | (q, d) :: l' => if bool_decide (q = p) then (p, c) :: l' else (q, d) :: replace_file p c l'
  end.

(** [p.write_text(content)] *)
Definition write_text (p : Path.t) (content : string) : IO unit := fun fs =>
  if bool_decide (Path.parent p ∈ readonly fs) then (Raise PermissionError, fs)
  else (Ok tt, mkFS (home fs) (dirs fs) (readonly fs)
                    (replace_file p (Text content) (files fs))).

(** [p.unlink()] *)
Definition unlink (p : Path.t) : IO unit := fun fs =>
  match lookup_file p fs with
  | None => (Raise FileNotFoundError, fs)
  | Some _ =>
      if bool_decide (Path.parent p ∈ readonly fs) then (Raise PermissionError, fs)
      else (Ok tt, mkFS (home fs) (dirs fs) (readonly fs)
                        (List.filter (fun x => negb (bool_decide (fst x = p))) (files fs)))
  end.

(** [Path.home()] *)
Definition path_home : IO Path.t := fun fs => (Ok (home fs), fs).

End OS.

(** ** The store ([desktop_file.py], module level, and the file methods) *)
Module Store.
Import PyStr OS.

(** [sorted(l, key=key)] with string keys, compared code point by code
    point: a stable sort, written as an insertion sort that keeps equal
    keys in their order of arrival.  A sorted, stable arrangement of a list
    is unique, so that nothing depends on the algorithm. *)
Fixpoint insert_sorted {A : Type} (key : A -> string) (x : A) (l : list A) : list A :=
  match l with
  | [] => [x]
  | y :: l' =>
      if String.leb (key x) (key y) then x :: y :: l'
      else y :: insert_sorted key x l'
  end.

Fixpoint sorted {A : Type} (key : A -> string) (l : list A) : list A :=
  match l with
  | [] => []
  | x :: l' => insert_sorted key x (sorted key l')
  end.

Definition get_user_applications_dir : IO Path.t :=
  h ← path_home; mret (h // ".local" // "share" // "applications").

Definition get_system_applications_dir : IO Path.t :=
  mret (Path.of_string "/usr/share/applications").

(** The sort key [x[0].name.lower()]. *)
Definition sort_key (x : Path.t * bool) : string := lower (Path.name (fst x)).

Definition get_all_desktop_files : IO (list (Path.t * bool)) :=
  let files := [] in
  user_dir ← get_user_applications_dir;
  user_exists ← exists_ user_dir;
  files ← (if user_exists : bool
           then fs ← glob user_dir ".desktop";
                mret (files ++ List.map (fun f => (f, true)) fs)
           else mret files);
  system_dir ← get_system_applications_dir;
  system_exists ← exists_ system_dir;
  files ← (if system_exists : bool
           then fs ← glob system_dir ".desktop";
                mret (files ++ List.map (fun f => (f, false)) fs)
           else mret files);
  mret (sorted sort_key files).

(** [DesktopEntry.from_file] *)
Definition from_file (path : Path.t) : IO DesktopEntry.t :=
  content ← read_text path;
  mret (DesktopEntry.from_string content (Some (Path.to_string path))).

(** The loop of [load_all_entries]: a file whose loading raises is passed
    over. *)
Fixpoint load_loop (paths : list (Path.t * bool)) (entries : list DesktopEntry.t)
  : IO (list DesktopEntry.t) :=
  match paths with
  | [] => mret entries
  | (path, _) :: rest =>
      entries ← try_except
                  (e ← from_file path; mret (entries ++ [e]))
                  (fun _ => mret entries);
      load_loop rest entries
  end.

Definition load_all_entries : IO (list DesktopEntry.t) :=
  paths ← get_all_desktop_files;
  load_loop paths [].

(** The file name [save] makes up from the name of the entry. *)
Definition filename_of (self : DesktopEntry.t) : string :=
  replace " " "-" (lower (DesktopEntry.name self)) +:+ ".desktop".

(** [if self.file_path]: neither [None] nor empty. *)
Definition has_file_path (self : DesktopEntry.t) : option string :=
  match DesktopEntry.file_path self with
  | Some fp => if truthy fp then Some fp else None
  | None => None
  end.

(** [DesktopEntry.save]: the path written and the entry with its
    [file_path] set. *)
Definition save (self : DesktopEntry.t) (path : option Path.t)
  : IO (Path.t * DesktopEntry.t) :=
  path ← match path with
         | Some p => mret p
         | None =>
             match has_file_path self with
             | Some fp => mret (Path.of_string fp)
             | None =>
                 let filename := filename_of self in
                 d ← get_user_applications_dir;
                 mret (d // filename)
             end
         end;
  _ ← mkdir_parents (Path.parent path);
  _ ← write_text path (DesktopEntry.to_string self);
  mret (path, DesktopEntry.set_file_path self (Some (Path.to_string path))).

End Store.

(** ** The delete action of the application ([app.py]) *)
Module App.
Import PyStr OS.

(** The part of [MenuEntryApp] the action reads and writes. *)
Record t : Type := mk {
  entries : list DesktopEntry.t;
  current_entry : option DesktopEntry.t
}.

(** What [self.notify] is called with. *)
Inductive notice : Type :=
| NoEntrySelected                 (* "No entry selected", warning *)
| FileNotFound                    (* "File not found", error *)
| CannotDeleteSystemEntries       (* "Cannot delete system entries", error *)
| Deleted (name : string)         (* "Deleted {path.name}" *)
| ErrorDeleting (e : exn).        (* "Error deleting: {e}", error *)

(** [self.load_entries()], without the widgets. *)
Definition load_entries (self : t) : IO t :=
  es ← Store.load_all_entries;
  mret (mk es (current_entry self)).

(** [MenuEntryApp.action_delete]: the application afterwards and the
    notification shown. *)
Definition action_delete (self : t) : IO (t * notice) :=
  match current_entry self with
  | None => mret (self, NoEntrySelected)
  | Some entry =>
      match Store.has_file_path entry with
      | None => mret (self, NoEntrySelected)
      | Some fp =>
          let path := Path.of_string fp in
          found ← exists_ path;
          if negb found then mret (self, FileNotFound)
          else if negb (contains ".local" (Path.to_string path))
          then mret (self, CannotDeleteSystemEntries)
          else
            try_except
              (_ ← unlink path;
               let self := mk (entries self) None in
               self ← load_entries self;
               mret (self, Deleted (Path.name path)))
              (fun e => mret (self, ErrorDeleting e))
      end
  end.

End App.

(** ** The vocabulary of the specification *)
Module Spec.
Import PyStr.

(** Every character of [s] satisfies [p]. *)
Fixpoint all_chars (p : ascii -> bool) (s : string) : bool :=
  match s with
  | EmptyString => true
  | String c s' => p c && all_chars p s'
  end.

Definition no_linebreak (s : string) : bool :=
  all_chars (fun c => negb (is_linebreak c)) s.

(** A field value that one line of a descriptor carries unchanged: no line
    boundary inside and no whitespace at either end. *)
Definition clean (s : string) : bool :=
  no_linebreak s && String.eqb (strip s) s.

(** The condition on [exec] and [env_vars] under which wrapping on save and
    unwrapping on load undo each other. *)
Definition exec_stable (e : DesktopEntry.t) : bool :=
  if truthy (DesktopEntry.exec e) && truthy (DesktopEntry.env_vars e) then
    match DesktopEntry.env_parts (DesktopEntry.env_vars e) with
    | [] => negb (startswith "env " (DesktopEntry.exec e))
    | parts =>
        forallb (has_char "=") (split (join " " parts))
        && String.eqb (join " " (split (DesktopEntry.exec e))) (DesktopEntry.exec e)
        && negb (has_char "=" (hd "" (split (DesktopEntry.exec e))))
    end
  else true.

(** Every textual field is clean. *)
Definition clean_fields (e : DesktopEntry.t) : bool :=
  clean (DesktopEntry.name e) && clean (DesktopEntry.exec e)
  && clean (DesktopEntry.entry_type e) && clean (DesktopEntry.comment e)
  && clean (DesktopEntry.icon e) && clean (DesktopEntry.path e)
  && clean (DesktopEntry.categories e) && clean (DesktopEntry.keywords e)
  && clean (DesktopEntry.url e) && clean (DesktopEntry.mime_type e)
  && clean (DesktopEntry.env_vars e) && clean (DesktopEntry.startup_wm_class e).

(** An entry that a descriptor text represents exactly. *)
Definition stable (e : DesktopEntry.t) : bool :=
  clean_fields e && exec_stable e.

(** A word: not empty and without whitespace. *)
Definition is_word (w : string) : Prop :=
  truthy w = true /\ all_chars (fun c => negb (is_space c)) w = true.

(** The line of a field that is written only when it is not empty. *)
Definition opt_line (key value : string) : list string :=
  if truthy value then [key +:+ value] else [].

(** What stands after [Exec=]: the command, behind [env] and the parts of
    [env_vars] when there are any. *)
Definition exec_value (e : DesktopEntry.t) : string :=
  match DesktopEntry.env_parts (DesktopEntry.env_vars e) with
  | [] => DesktopEntry.exec e
  | parts => "env " +:+ join " " parts +:+ " " +:+ DesktopEntry.exec e
  end.

(** The lines of a descriptor in their fixed order. *)
Definition layout (e : DesktopEntry.t) : list string :=
  ["[Desktop Entry]";
   "Type=" +:+ DesktopEntry.entry_type e;
   "Name=" +:+ DesktopEntry.name e]
  ++ opt_line "Comment=" (DesktopEntry.comment e)
  ++ opt_line "Icon=" (DesktopEntry.icon e)
  ++ (if truthy (DesktopEntry.exec e) then ["Exec=" +:+ exec_value e] else [])
  ++ opt_line "Path=" (DesktopEntry.path e)
  ++ ["Terminal=" +:+ (if DesktopEntry.terminal e then "true" else "false")]
  ++ opt_line "Categories=" (DesktopEntry.categories e)
  ++ opt_line "Keywords=" (DesktopEntry.keywords e)
  ++ opt_line "URL=" (DesktopEntry.url e)
  ++ opt_line "MimeType=" (DesktopEntry.mime_type e)
  ++ opt_line "StartupWMClass=" (DesktopEntry.startup_wm_class e)
  ++ ["Hidden=" +:+ (if DesktopEntry.hidden e then "true" else "false")]
  ++ opt_line "X-Env-Vars=" (DesktopEntry.env_vars e).

(** A key that a line starts with as it stands: not empty, trimmed, not the
    start of a comment or of a section header, and without [=]. *)
Definition plain_key (k : string) : bool :=
  truthy k && String.eqb (strip k) k && negb (startswith "#" k)
  && negb (startswith "[" k) && negb (has_char "=" k).

(** [data[k] = v] for a value that is written only when it is not empty. *)
Definition put (k v : string) (data : gmap string string) : gmap string string :=
  if truthy v then <[k := v]> data else data.

(** The dictionary that holds what the lines of the layout assign. *)
Definition dict_of (e : DesktopEntry.t) : gmap string string :=
  put "X-Env-Vars" (DesktopEntry.env_vars e)
  (<["Hidden" := if DesktopEntry.hidden e then "true" else "false"]>
  (put "StartupWMClass" (DesktopEntry.startup_wm_class e)
  (put "MimeType" (DesktopEntry.mime_type e)
  (put "URL" (DesktopEntry.url e)
  (put "Keywords" (DesktopEntry.keywords e)
  (put "Categories" (DesktopEntry.categories e)
  (<["Terminal" := if DesktopEntry.terminal e then "true" else "false"]>
  (put "Path" (DesktopEntry.path e)
  ((if truthy (DesktopEntry.exec e) then <["Exec" := exec_value e]> else id)
  (put "Icon" (DesktopEntry.icon e)
  (put "Comment" (DesktopEntry.comment e)
  (<["Name" := DesktopEntry.name e]>
  (<["Type" := DesktopEntry.entry_type e]> ∅))))))))))))).

(** The text ends with a line feed that no other line feed precedes. *)
Definition ends_with_one_newline (s : string) : bool :=
  endswith (String LF "") s && negb (endswith (String LF (String LF "")) s).

(** The case-insensitive literal [true]. *)
Definition ci_true (v : string) : bool :=
  match v with
  | String a (String b (String c (String d EmptyString))) =>
      (Ascii.eqb a "t" || Ascii.eqb a "T") && (Ascii.eqb b "r" || Ascii.eqb b "R")
      && (Ascii.eqb c "u" || Ascii.eqb c "U") && (Ascii.eqb d "e" || Ascii.eqb d "E")
  | _ => false
  end.

(** The key and value of every line that is read as an assignment: a line
    inside the section named [[Desktop Entry]] that is not blank, not a
    comment, not a section header, and contains an [=]; both sides of the
    first [=] are trimmed. *)
Fixpoint assignments (in_scope : bool) (lines : list string) : list (string * string) :=
  match lines with
  | [] => []
  | raw :: rest =>
      let line := strip raw in
      if negb (truthy line) || startswith "#" line then assignments in_scope rest
      else if startswith "[" line && endswith "]" line then
        assignments (String.eqb line "[Desktop Entry]") rest
      else if in_scope && has_char "=" line then
        let '(key, _, value) := partition "=" line in
        (strip key, strip value) :: assignments in_scope rest
      else assignments in_scope rest
  end.

(** The assignments of a descriptor text, in the order of its lines. *)
Definition assignments_of (content : string) : list (string * string) :=
  assignments false (splitlines content).


(** The value of the last assignment to [key], if there is one. *)
Definition last_assigned (key : string) (kvs : list (string * string)) : option string :=
  foldl (fun acc kv => if String.eqb (fst kv) key then Some (snd kv) else acc) None kvs.

(** The key is assigned nowhere in the text. *)
Definition omitted (key content : string) : Prop :=
  key ∉ (assignments_of content).*1.

(** [p] lies under the directory [d]. *)
Definition lies_under (d p : Path.t) : bool :=
  String.eqb (Path.root d) (Path.root p)
  && bool_decide (take (length (Path.parts d)) (Path.parts p) = Path.parts d)
  && (length (Path.parts d) <? length (Path.parts p)).

(** The files of a directory that [glob] matches, in the order of the file
    system. *)
Definition desktop_files_in (d : Path.t) (fs : OS.FS) : list Path.t :=
  List.filter
    (fun p => bool_decide (Path.parent p = d) && endswith ".desktop" (Path.name p))
    (List.map fst (OS.files fs)).

(** Something exists at the path: a directory, or an entry of one. *)
Definition path_exists (p : Path.t) (fs : OS.FS) : bool :=
  bool_decide (p ∈ OS.dirs fs) || bool_decide (is_Some (OS.lookup_file p fs)).

(** The user applications directory of a file system. *)
Definition user_dir (fs : OS.FS) : Path.t :=
  OS.home fs // ".local" // "share" // "applications".

Definition system_dir : Path.t := Path.of_string "/usr/share/applications".

(** The descriptor files of the two directories, those of the user first
    and flagged, a directory that does not exist giving none. *)
Definition flagged_files (fs : OS.FS) : list (Path.t * bool) :=
  List.map (fun f => (f, true))
    (if path_exists (user_dir fs) fs then desktop_files_in (user_dir fs) fs else [])
  ++ List.map (fun f => (f, false))
    (if path_exists system_dir fs then desktop_files_in system_dir fs else []).

(** The file name of a listed file without regard to case: every capital
    letter counts as its small letter. *)
Definition caseless_name (x : Path.t * bool) : string :=
  lower (Path.name (fst x)).

(** The order of the enumeration: by file name, without regard to case. *)
Definition by_name (x y : Path.t * bool) : Prop :=
  String.le (caseless_name x) (caseless_name y).

(** The order by file name as it is written, capital letters before small
    ones. *)
Definition by_exact_name (x y : Path.t * bool) : Prop :=
  String.le (Path.name (fst x)) (Path.name (fst y)).

(** Two file systems that differ only in the order in which they enumerate
    their directory entries. *)
Definition same_up_to_order (fs fs' : OS.FS) : Prop :=
  OS.home fs = OS.home fs' /\ OS.dirs fs ≡ₚ OS.dirs fs' /\ OS.files fs ≡ₚ OS.files fs'.

(** The entry a file is loaded as, when its text can be read. *)
Definition loaded (fs : OS.FS) (x : Path.t * bool) : option DesktopEntry.t :=
  match OS.lookup_file (fst x) fs with
  | Some (OS.Text content) =>
      Some (DesktopEntry.from_string content (Some (Path.to_string (fst x))))
  | _ => None
  end.

End Spec.

(** ** Sample inputs *)
Module Examples.
Import PyStr.

Definition nl : string := String LF "".

(** A descriptor with a wrapped command. *)
Definition wrapped_text : string :=
  "[Desktop Entry]" +:+ nl +:+
  "Name=Tool" +:+ nl +:+
  "Exec=env FOO=1 BAR=2 mycommand --flag" +:+ nl +:+
  "X-Env-Vars=FOO=1;BAR=2" +:+ nl.

(** The same lines followed by a second assignment to [Exec]. *)
Definition overridden_text : string :=
  wrapped_text +:+ "Exec=other" +:+ nl.

(** A descriptor whose command, after [env], is made of assignments only. *)
Definition assignments_only_text : string :=
  "[Desktop Entry]" +:+ nl +:+
  "Exec=env  A=1   B=2" +:+ nl +:+
  "X-Env-Vars=A=1" +:+ nl.

Definition plain_entry (name : string) : DesktopEntry.t :=
  DesktopEntry.mk name "" "Application" "" "" "" false "" "" "" "" false "" "" None.

(** A descriptor whose command has two spaces and is not wrapped. *)
Definition spaced_text : string :=
  "[Desktop Entry]" +:+ nl +:+
  "Exec=a  b" +:+ nl +:+
  "X-Env-Vars=FOO=1" +:+ nl.

(** An entry with a wrapped command. *)
Definition wrapped_entry : DesktopEntry.t :=
  DesktopEntry.mk "Tool" "mycommand --flag" "Application" "" "" "" false "" "" ""
                  "" false "FOO=1;BAR=2" "" None.

(** An entry whose name begins with a space. *)
Definition padded_entry : DesktopEntry.t := plain_entry " x".

(** An entry whose [env_vars] ends with a line feed. *)
Definition newline_entry : DesktopEntry.t :=
  DesktopEntry.mk "Tool" "" "Application" "" "" "" false "" "" ""
                  "" false ("A=1" +:+ nl) "" None.

(** A file system with a user and a system directory; the system directory
    may not be changed. *)
Definition sample_home : Path.t := Path.of_string "/home/u".

Definition sample_user_dir : Path.t :=
  sample_home // ".local" // "share" // "applications".

Definition sample_system_dir : Path.t := Path.of_string "/usr/share/applications".

Definition sample_fs : OS.FS :=
  OS.mkFS sample_home [sample_user_dir; sample_system_dir] [sample_system_dir]
    [(sample_user_dir // "b.desktop", OS.Text wrapped_text);
     (sample_user_dir // "a.desktop", OS.Unreadable OS.UnicodeDecodeError);
     (sample_system_dir // "c.desktop", OS.Text "");
     (sample_user_dir // "notes.txt", OS.Text "")].

(** The same file system enumerating its entries in another order. *)
Definition reordered_fs : OS.FS :=
  OS.mkFS sample_home [sample_user_dir; sample_system_dir] [sample_system_dir]
    [(sample_user_dir // "a.desktop", OS.Unreadable OS.UnicodeDecodeError);
     (sample_user_dir // "b.desktop", OS.Text wrapped_text);
     (sample_system_dir // "c.desktop", OS.Text "");
     (sample_user_dir // "notes.txt", OS.Text "")].

(** A file system whose file names differ in case. *)
Definition mixed_case_fs : OS.FS :=
  OS.mkFS sample_home [sample_user_dir; sample_system_dir] [sample_system_dir]
    [(sample_user_dir // "B.desktop", OS.Text "");
     (sample_system_dir // "C.desktop", OS.Text "");
     (sample_user_dir // "a.desktop", OS.Text "")].

(** The same file system enumerating its entries in another order. *)
Definition mixed_case_reordered_fs : OS.FS :=
  OS.mkFS sample_home [sample_user_dir; sample_system_dir] [sample_system_dir]
    [(sample_user_dir // "a.desktop", OS.Text "");
     (sample_user_dir // "B.desktop", OS.Text "");
     (sample_system_dir // "C.desktop", OS.Text "")].

(** The same file system with the system directory open to changes and a
    file in it whose name contains [.local]. *)
Definition open_fs : OS.FS :=
  OS.mkFS sample_home [sample_user_dir; sample_system_dir] []
    [(sample_system_dir // "org.local.desktop", OS.Text "")].



(** The application with an entry of the given path selected. *)
Definition selected (fp : string) : App.t :=
  App.mk [] (Some (DesktopEntry.set_file_path (plain_entry "Tool") (Some fp))).

End Examples.

(** ** The editor panel ([app.py], class [Editor]) *)
Module Editor.

(** The values of the thirteen widgets: an [Input] holds a text, a [Switch]
    a truth value, each the value last given to it. *)
Record t : Type := mk {
  name : string;
  exec : string;
  comment : string;
  icon : string;
  path : string;
  categories : string;
  keywords : string;
  terminal : bool;
  hidden : bool;
  env_vars : string;
  mime_type : string;
  startup_wm_class : string;
  url : string
}.

(** [Editor.load_entry]: every widget is given the value of its field. *)
Definition load_entry (self : t) (entry : DesktopEntry.t) : t :=
  {| name := DesktopEntry.name entry;
     exec := DesktopEntry.exec entry;
     comment := DesktopEntry.comment entry;
     icon := DesktopEntry.icon entry;
     path := DesktopEntry.path entry;
     categories := DesktopEntry.categories entry;
     keywords := DesktopEntry.keywords entry;
     terminal := DesktopEntry.terminal entry;
     hidden := DesktopEntry.hidden entry;
     env_vars := DesktopEntry.env_vars entry;
     mime_type := DesktopEntry.mime_type entry;
     startup_wm_class := DesktopEntry.startup_wm_class entry;
     url := DesktopEntry.url entry |}.

(** [Editor.get_entry]: the constructor is called without [entry_type],
    which so takes its default. *)
Definition get_entry (self : t) (existing : option DesktopEntry.t) : DesktopEntry.t :=
  {| DesktopEntry.name := name self;
     DesktopEntry.exec := exec self;
     DesktopEntry.entry_type := "Application";
     DesktopEntry.comment := comment self;
     DesktopEntry.icon := icon self;
     DesktopEntry.path := path self;
     DesktopEntry.terminal := terminal self;
     DesktopEntry.categories := categories self;
     DesktopEntry.keywords := keywords self;
     DesktopEntry.url := url self;
     DesktopEntry.mime_type := mime_type self;
     DesktopEntry.hidden := hidden self;
     DesktopEntry.env_vars := env_vars self;
     DesktopEntry.startup_wm_class := startup_wm_class self;
     DesktopEntry.file_path :=
       match existing with
       | Some e => DesktopEntry.file_path e
       | None => None
       end |}.

(** [Editor.clear] *)
Definition clear (self : t) : t :=
  mk "" "" "" "" "" "" "" false false "" "" "" "".

End Editor.

(** ** The list and the save action of the application ([app.py]) *)
Module Ui.
Import PyStr OS.

(** A [ListItem] of the list of entries: its label, its class and the
    entry attached to it. *)
Record item : Type := mk_item {
  label : string;
  classes : string;
  entry : DesktopEntry.t
}.

(** [entry.file_path and ".local" in entry.file_path], as a truth value. *)
Definition is_user (entry : DesktopEntry.t) : bool :=
  match DesktopEntry.file_path entry with
  | Some fp => truthy fp && contains ".local" fp
  | None => false
  end.

(** The item made for an entry. *)
Definition item_of (entry : DesktopEntry.t) : item :=
  {| label := DesktopEntry.name entry;
     classes := if is_user entry then "user-entry" else "system-entry";
     entry := entry |}.

(** The list view after [load_entries]: one item for each entry. *)
Fixpoint list_items (entries : list DesktopEntry.t) : list item :=
  match entries with
  | [] => []
  | entry :: rest => item_of entry :: list_items rest
  end.

(** The loop of [filter_entries] over [self.entries], [query] being in
    lower case already. *)
Fixpoint filter_loop (query : string) (entries : list DesktopEntry.t) : list item :=
  match entries with
  | [] => []
  | entry :: rest =>
      if truthy query && negb (contains query (lower (DesktopEntry.name entry)))
      then filter_loop query rest
      else item_of entry :: filter_loop query rest
  end.

(** [MenuEntryApp.filter_entries]: the list view afterwards. *)
Definition filter_entries (self : App.t) (query : string) : list item :=
  let query := lower query in
  filter_loop query (App.entries self).





End Ui.

(** ** Further vocabulary *)
Module SpecMore.
Import PyStr Spec.

(** The entry of a text that assigns nothing. *)
Definition default_entry (fp : option string) : DesktopEntry.t :=
  DesktopEntry.mk "Unnamed" "" "Application" "" "" "" false "" "" "" "" false "" "" fp.

(** The entry with another type. *)
Definition with_entry_type (ty : string) (e : DesktopEntry.t) : DesktopEntry.t :=
  DesktopEntry.mk
    (DesktopEntry.name e) (DesktopEntry.exec e) ty (DesktopEntry.comment e)
    (DesktopEntry.icon e) (DesktopEntry.path e) (DesktopEntry.terminal e)
    (DesktopEntry.categories e) (DesktopEntry.keywords e) (DesktopEntry.url e)
    (DesktopEntry.mime_type e) (DesktopEntry.hidden e) (DesktopEntry.env_vars e)
    (DesktopEntry.startup_wm_class e) (DesktopEntry.file_path e).

(** No textual field holds a line boundary. *)
Definition no_linebreak_fields (e : DesktopEntry.t) : bool :=
  no_linebreak (DesktopEntry.name e) && no_linebreak (DesktopEntry.exec e)
  && no_linebreak (DesktopEntry.entry_type e) && no_linebreak (DesktopEntry.comment e)
  && no_linebreak (DesktopEntry.icon e) && no_linebreak (DesktopEntry.path e)
  && no_linebreak (DesktopEntry.categories e) && no_linebreak (DesktopEntry.keywords e)
  && no_linebreak (DesktopEntry.url e) && no_linebreak (DesktopEntry.mime_type e)
  && no_linebreak (DesktopEntry.env_vars e) && no_linebreak (DesktopEntry.startup_wm_class e).

(** A component of a path: not empty, not [.], without a slash. *)
Definition component (c : string) : bool :=
  Path.is_part c && negb (has_char "/" c).

(** A path as [Path(s)] makes it. *)
Definition normal_path (p : Path.t) : bool :=
  (String.eqb (Path.root p) "" || String.eqb (Path.root p) "/"
   || String.eqb (Path.root p) "//")
  && forallb component (Path.parts p).

(** The path [save] writes to: the path given, else the path the entry
    carries, else the file name made up from the name of the entry, in the
    user applications directory. *)
Definition save_target (e : DesktopEntry.t) (path : option Path.t) (fs : OS.FS) : Path.t :=
  match path with
  | Some p => p
  | None =>
      match Store.has_file_path e with
      | Some fp => Path.of_string fp
      | None => user_dir fs // Store.filename_of e
      end
  end.

(** The file system after [mkdir] has made the directory [d] and those
    above it, as far as they were missing. *)
Definition after_mkdir (d : Path.t) (fs : OS.FS) : OS.FS :=
  OS.mkFS (OS.home fs)
    (OS.dirs fs ++ List.filter (fun a => negb (bool_decide (a ∈ OS.dirs fs))) (OS.ancestors d))
    (OS.readonly fs) (OS.files fs).

(** The file system after the text of [e] has been written at [p]. *)
Definition after_save (e : DesktopEntry.t) (p : Path.t) (fs : OS.FS) : OS.FS :=
  OS.mkFS (OS.home fs) (OS.dirs (after_mkdir (Path.parent p) fs)) (OS.readonly fs)
    (OS.replace_file p (OS.Text (DesktopEntry.to_string e)) (OS.files fs)).

(** The file system after the entries of [p] have been removed. *)
Definition after_unlink (p : Path.t) (fs : OS.FS) : OS.FS :=
  OS.mkFS (OS.home fs) (OS.dirs fs) (OS.readonly fs)
    (List.filter (fun x => negb (bool_decide (fst x = p))) (OS.files fs)).

(** The entries of the files of a file system that can be read, in the
    order of the listing. *)
Definition reloaded (fs : OS.FS) : list DesktopEntry.t :=
  omap (loaded fs) (Store.sorted Store.sort_key (flagged_files fs)).

(** The name of the entry contains the query, both in lower case; an empty
    query is contained in every name. *)
Definition matches (query : string) (e : DesktopEntry.t) : bool :=
  contains (lower query) (lower (DesktopEntry.name e)).

End SpecMore.

(** ** Further sample inputs *)
Module ExamplesMore.
Import PyStr.

(** A text without the header of the section. *)
Definition headerless_text : string :=
  "Name=Tool" +:+ Examples.nl +:+ "Exec=tool" +:+ Examples.nl.

(** A text whose command begins with [env] and that sets no variables. *)
Definition env_command_text : string :=
  "[Desktop Entry]" +:+ Examples.nl +:+ "Exec=env A=1 tool" +:+ Examples.nl.




(** The application with three entries loaded and none selected. *)
Definition three_entries : App.t :=
  App.mk [Examples.plain_entry "Firefox"; Examples.plain_entry "Files";
          Examples.plain_entry "Terminal"] None.

End ExamplesMore.

(** ** Facts about the string built-ins *)
Module PyStrFacts.
Import PyStr Spec.

Lemma sapp_cons c s t : String c s +:+ t = String c (s +:+ t).
Proof. reflexivity. Qed.

Lemma sapp_nil_l s : "" +:+ s = s.
Proof. reflexivity. Qed.

Lemma sapp_nil_r s : s +:+ "" = s.
Proof. induction s as [|c s IH]; [reflexivity|]. now rewrite sapp_cons, IH. Qed.

Lemma sapp_assoc s t u : (s +:+ t) +:+ u = s +:+ t +:+ u.
Proof. induction s as [|c s IH]; [reflexivity|]. now rewrite !sapp_cons, IH. Qed.

Lemma slength_app s t : String.length (s +:+ t) = String.length s + String.length t.
Proof. induction s as [|c s IH]; [reflexivity|]. rewrite sapp_cons. simpl. now rewrite IH. Qed.

Lemma all_chars_app p s t : all_chars p (s +:+ t) = all_chars p s && all_chars p t.
Proof.
  induction s as [|c s IH]; [reflexivity|].
  rewrite sapp_cons. simpl. now rewrite IH, andb_assoc.
Qed.

Lemma has_char_app c s t : has_char c (s +:+ t) = has_char c s || has_char c t.
Proof.
  induction s as [|d s IH]; [reflexivity|].
  rewrite sapp_cons. simpl. now rewrite IH, orb_assoc.
Qed.

(** *** [strip] *)

Lemma length_lstrip s : String.length (lstrip s) <= String.length s.
Proof. induction s as [|c s IH]; simpl; [lia|]. destruct (is_space c); simpl; lia. Qed.

Lemma length_rstrip s : String.length (rstrip s) <= String.length s.
Proof.
  induction s as [|c s IH]; simpl; [lia|].
  destruct (rstrip s); [destruct (is_space c)|]; simpl in *; lia.
Qed.

Lemma lstrip_fix s : lstrip s = s <-> match s with String c _ => is_space c = false | _ => True end.
Proof.
  destruct s as [|c s]; simpl; [tauto|].
  destruct (is_space c) eqn:E; split; try congruence.
  intros H. pose proof (length_lstrip s) as L. rewrite H in L. simpl in L. lia.
Qed.

Lemma strip_fix s : strip s = s -> lstrip s = s /\ rstrip s = s.
Proof.
  unfold strip. intros H.
  assert (lstrip s = s) as Hl.
  { destruct s as [|c s]; [reflexivity|]. simpl in *.
    destruct (is_space c); [|reflexivity].
    pose proof (length_rstrip (lstrip s)) as L1. pose proof (length_lstrip s) as L2.
    rewrite H in L1. simpl in L1. lia. }
  split; [exact Hl|]. now rewrite Hl in H.
Qed.

Lemma rstrip_app_r a b : rstrip b <> "" -> rstrip (a +:+ b) = a +:+ rstrip b.
Proof.
  intros Hb. induction a as [|c a IH]; [reflexivity|].
  rewrite !sapp_cons. simpl. rewrite IH.
  destruct (a +:+ rstrip b) eqn:E; [|reflexivity].
  destruct a; [|discriminate]. contradiction.
Qed.

(** A value glued to a key that starts with a visible character is
    trimmed as a whole exactly when the value is; an empty value asks the
    same of the end of the key. *)
Lemma strip_key_value k v :
  lstrip k = k -> k <> "" -> strip v = v -> (v = "" -> rstrip k = k) ->
  strip (k +:+ v) = k +:+ v.
Proof.
  intros Hl Hk Hv Hr. apply strip_fix in Hv as [_ Hv].
  unfold strip.
  assert (lstrip (k +:+ v) = k +:+ v) as ->.
  { destruct k as [|c k]; [congruence|]. rewrite sapp_cons.
    apply lstrip_fix. now apply lstrip_fix in Hl. }
  destruct v as [|d v].
  - rewrite sapp_nil_r. now apply Hr.
  - rewrite rstrip_app_r; rewrite Hv; congruence.
Qed.

(** *** [partition] *)

Lemma partition_first c k v :
  has_char c k = false -> partition c (k +:+ String c v) = (k, String c "", v).
Proof.
  induction k as [|d k IH]; intros H.
  - simpl. now rewrite Ascii.eqb_refl.
  - rewrite sapp_cons. simpl in *. apply orb_false_iff in H as [H1 H2].
    rewrite H1, IH by assumption. reflexivity.
Qed.


(** *** Fields, [split] and [join] *)

Lemma fields_list_cons p c s :
  fields_list p (String c s) =
  if p c then "" :: fields_list p s
  else match fields_list p s with
       | f :: fs => String c f :: fs
       | [] => [String c ""]
       end.
Proof. unfold fields_list. simpl. destruct (fields p s), (p c); reflexivity. Qed.

Lemma fields_list_nonempty p s : fields_list p s <> [].
Proof. unfold fields_list. destruct (fields p s). discriminate. Qed.

Lemma fields_list_sep p a c b :
  p c = true -> fields_list p (a +:+ String c b) = fields_list p a ++ fields_list p b.
Proof.
  intros Hc. induction a as [|d a IH].
  - rewrite sapp_nil_l, fields_list_cons, Hc. reflexivity.
  - rewrite sapp_cons, !fields_list_cons, IH. destruct (p d); [reflexivity|].
    pose proof (fields_list_nonempty p a).
    destruct (fields_list p a); [congruence|reflexivity].
Qed.

Lemma fields_list_whole p s :
  all_chars (fun c => negb (p c)) s = true -> fields_list p s = [s].
Proof.
  induction s as [|c s IH]; [reflexivity|]. simpl.
  intros [Hc Hs]%andb_true_iff. rewrite fields_list_cons, IH by assumption.
  apply negb_true_iff in Hc. now rewrite Hc.
Qed.

Lemma fields_list_no_sep p s :
  Forall (fun f => all_chars (fun c => negb (p c)) f = true) (fields_list p s).
Proof.
  induction s as [|c s IH]; [repeat constructor|].
  rewrite fields_list_cons. destruct (p c) eqn:Hc.
  - constructor; [reflexivity|exact IH].
  - pose proof (fields_list_nonempty p s).
    destruct (fields_list p s); [congruence|].
    inversion IH; subst. constructor; [|assumption]. simpl. now rewrite Hc.
Qed.

Lemma split_sep a c b : is_space c = true -> split (a +:+ String c b) = split a ++ split b.
Proof. intros Hc. unfold split. now rewrite (fields_list_sep _ _ _ _ Hc), List.filter_app. Qed.

Lemma split_word w : is_word w -> split w = [w].
Proof. intros [H1 H2]. unfold split. rewrite fields_list_whole by assumption. simpl. now rewrite H1. Qed.

Lemma split_words s : Forall is_word (split s).
Proof.
  unfold split. pose proof (fields_list_no_sep is_space s) as H.
  induction H as [|f fs Hf _ IH]; [constructor|].
  simpl. destruct (truthy f) eqn:E; [constructor; [split|]|]; assumption.
Qed.

Lemma join_cons2 sep x y l : join sep (x :: y :: l) = x +:+ sep +:+ join sep (y :: l).
Proof. reflexivity. Qed.

Lemma join_one sep x : join sep [x] = x.
Proof. reflexivity. Qed.

Lemma join_snoc sep l x :
  l <> [] -> join sep (l ++ [x]) = join sep l +:+ sep +:+ x.
Proof.
  induction l as [|y l IH]; [congruence|]. intros _.
  destruct l as [|z l]; [reflexivity|].
  change ((y :: z :: l) ++ [x]) with (y :: z :: (l ++ [x])).
  rewrite !join_cons2. change (z :: l ++ [x]) with ((z :: l) ++ [x]).
  rewrite IH by discriminate. now rewrite !sapp_assoc.
Qed.

Lemma join_app sep l1 l2 :
  l1 <> [] -> l2 <> [] -> join sep (l1 ++ l2) = join sep l1 +:+ sep +:+ join sep l2.
Proof.
  intros H1 H2. induction l1 as [|y l IH]; [congruence|].
  destruct l as [|z l].
  - destruct l2; [congruence|]. reflexivity.
  - change ((y :: z :: l) ++ l2) with (y :: z :: (l ++ l2)).
    rewrite !join_cons2. change (z :: l ++ l2) with ((z :: l) ++ l2).
    rewrite IH by discriminate. now rewrite !sapp_assoc.
Qed.

(** Words joined by single spaces split into the same words. *)
Lemma split_join ws : Forall is_word ws -> split (join " " ws) = ws.
Proof.
  induction 1 as [|w ws Hw Hws IH]; [reflexivity|].
  destruct ws as [|w' ws]; [now apply split_word|].
  rewrite join_cons2.
  change (w +:+ " " +:+ join " " (w' :: ws)) with (w +:+ String " "%char (join " " (w' :: ws))).
  rewrite split_sep by reflexivity. rewrite IH, split_word by assumption. reflexivity.
Qed.

(** *** [splitlines] *)

Lemma lines_list_cons c s :
  is_linebreak c = false ->
  lines_list (String c s) =
  match lines_list s with f :: fs => String c f :: fs | [] => [String c ""] end.
Proof. intros H. unfold lines_list. simpl. rewrite H. destruct (line_fields s). reflexivity. Qed.

Lemma lines_list_LF s : lines_list (String LF s) = "" :: lines_list s.
Proof.
  unfold lines_list. destruct s as [|d s]; [reflexivity|].
  change (line_fields (String LF (String d s)))
    with (let '(f, fs) := line_fields (String d s) in ("", f :: fs)).
  destruct (line_fields (String d s)). reflexivity.
Qed.

Lemma lines_list_line l s :
  no_linebreak l = true -> lines_list (l +:+ String LF s) = l :: lines_list s.
Proof.
  induction l as [|c l IH]; intros H.
  - apply lines_list_LF.
  - simpl in H. apply andb_true_iff in H as [Hc Hl]. apply negb_true_iff in Hc.
    rewrite sapp_cons, lines_list_cons, IH by assumption. reflexivity.
Qed.

Lemma drop_last_empty_snoc l : drop_last_empty (l ++ [""]) = l.
Proof.
  induction l as [|x l IH]; [reflexivity|].
  change ((x :: l) ++ [""]) with (x :: (l ++ [""])).
  simpl. rewrite IH. destruct l; reflexivity.
Qed.

Lemma lines_list_join ls :
  ls <> [] -> Forall (fun l => no_linebreak l = true) ls ->
  lines_list (join (String LF "") ls +:+ String LF "") = ls ++ [""].
Proof.
  intros Hne H. induction H as [|l ls Hl Hls IH]; [congruence|].
  destruct ls as [|l' ls].
  - rewrite join_one, lines_list_line by assumption. reflexivity.
  - rewrite join_cons2, !sapp_assoc.
    change (String LF "" +:+ ?x) with (String LF x).
    rewrite lines_list_line by assumption. rewrite IH by discriminate. reflexivity.
Qed.

(** The lines of a text made of lines and a final line feed. *)
Lemma splitlines_join ls :
  ls <> [] -> Forall (fun l => no_linebreak l = true) ls ->
  splitlines (join (String LF "") ls +:+ String LF "") = ls.
Proof.
  intros. unfold splitlines. rewrite lines_list_join by assumption.
  apply drop_last_empty_snoc.
Qed.

End PyStrFacts.

(** ** Serialization *)
Module Serialize.
Import PyStr Spec DesktopEntry PyStrFacts.

Lemma endswith_spec p s : endswith p s = true <-> exists a, s = a +:+ p.
Proof.
  induction s as [|c s IH]; simpl.
  - rewrite orb_false_r, String.eqb_eq. split.
    + intros ->. now exists "".
    + intros [a H]. destruct a; [now rewrite sapp_nil_l in H|discriminate].
  - rewrite orb_true_iff, String.eqb_eq, IH. split.
    + intros [->|[a ->]]; [now exists ""|now exists (String c a)].
    + intros [[|d a] H]; [now left|]. right. rewrite sapp_cons in H.
      injection H as _ ->. now exists a.
Qed.

Lemma snoc_inj s t x y : s +:+ String x "" = t +:+ String y "" -> s = t /\ x = y.
Proof.
  revert t. induction s as [|c s IH]; intros [|d t] H; rewrite ?sapp_cons, ?sapp_nil_l in H.
  - now injection H.
  - injection H as _ H. destruct t; discriminate.
  - injection H as _ H. destruct s; discriminate.
  - injection H as -> H. apply IH in H as [-> ->]. now split.
Qed.

Lemma snoc_exists c s : exists s' d, String c s = s' +:+ String d "".
Proof.
  revert c. induction s as [|e s IH]; intros c.
  - now exists "", c.
  - destruct (IH e) as (s' & d & ->). now exists (String c s'), d.
Qed.

(** Whether a text ends with a given character depends on its last
    non-empty piece only. *)
Lemma endswith_char_app c a b :
  b <> "" -> endswith (String c "") (a +:+ b) = endswith (String c "") b.
Proof.
  intros Hb. destruct b as [|e b]; [congruence|].
  destruct (snoc_exists e b) as (b' & d & ->).
  apply eq_true_iff_eq. rewrite !endswith_spec. split.
  - intros [x H]. rewrite <- sapp_assoc in H. apply snoc_inj in H as [_ ->]. now exists b'.
  - intros [x H]. apply snoc_inj in H as [_ ->]. exists (a +:+ b'). now rewrite sapp_assoc.
Qed.

Lemma one_newline body :
  endswith (String LF "") body = false ->
  ends_with_one_newline (body +:+ String LF "") = true.
Proof.
  intros H. unfold ends_with_one_newline. apply andb_true_iff. split.
  - apply endswith_spec. now exists body.
  - apply negb_true_iff, not_true_is_false. intros [a Ha]%endswith_spec.
    change (String LF (String LF "")) with (String LF "" +:+ String LF "") in Ha.
    rewrite <- sapp_assoc in Ha. apply snoc_inj in Ha as [-> _].
    assert (endswith (String LF "") (a +:+ String LF "") = true) by (apply endswith_spec; eauto).
    congruence.
Qed.

Lemma if_snoc {A} (b : bool) (l x : list A) :
  (if b then l ++ x else l) = l ++ (if b then x else []).
Proof. destruct b; [reflexivity|now rewrite app_nil_r]. Qed.

Lemma exec_snoc (e : DesktopEntry.t) (l : list string) :
  (if truthy (exec e)
   then if truthy (env_vars e)
        then let parts := env_parts (env_vars e) in
             match parts with
             | _ :: _ => l ++ ["Exec=env " +:+ join " " parts +:+ " " +:+ exec e]
             | [] => l ++ ["Exec=" +:+ exec e]
             end
        else l ++ ["Exec=" +:+ exec e]
   else l)
  = l ++ (if truthy (exec e) then ["Exec=" +:+ exec_value e] else []).
Proof.
  unfold exec_value. destruct (truthy (exec e)); [|now rewrite List.app_nil_r].
  destruct (env_vars e) as [|c ev]; [reflexivity|].
  simpl truthy. cbv iota zeta. destruct (env_parts (String c ev)); reflexivity.
Qed.

(** One assignment to [lines] at a time: the value is brought to the form
    of a list with something appended before it is passed on. *)
Ltac step_lines :=
  lazymatch goal with
  | |- (let x := (if ?b then ?l ++ ?y else ?l) in @?f x) = ?r =>
      let g := eval cbv beta in (f (l ++ (if b then y else []))) in
      transitivity g; [exact (f_equal f (if_snoc b l y))|]
  | |- (let x := (if truthy (exec ?e) then _ else ?l) in @?f x) = ?r =>
      let g := eval cbv beta in
        (f (l ++ (if truthy (exec e) then ["Exec=" +:+ exec_value e] else []))) in
      transitivity g; [exact (f_equal f (exec_snoc e l))|]
  | |- (let x := ?v in @?f x) = ?r =>
      let g := eval cbv beta in (f v) in change (g = r)
  end.

(** The list [to_string] builds is the fixed layout. *)
Lemma to_lines_layout e : to_lines e = layout e.
Proof.
  cbv beta delta [to_lines].
  repeat step_lines.
  unfold layout, opt_line, bool_str.
  repeat rewrite <- List.app_assoc. reflexivity.
Qed.

Lemma to_string_layout e :
  to_string e = join (String LF "") (layout e) +:+ String LF "".
Proof. unfold to_string. now rewrite to_lines_layout. Qed.

(** The last line of the layout and what stands before it. *)
Lemma layout_last e :
  exists pre, pre <> [] /\
    layout e = pre ++ [if truthy (env_vars e) then "X-Env-Vars=" +:+ env_vars e
                       else "Hidden=" +:+ (if hidden e then "true" else "false")].
Proof.
  unfold layout. unfold opt_line at 9. destruct (truthy (env_vars e)).
  - eexists. split; [|rewrite !List.app_assoc; reflexivity]. discriminate.
  - eexists. split; [|rewrite List.app_nil_r, !List.app_assoc; reflexivity]. discriminate.
Qed.




(** C5. The lines [to_string] builds are the fixed layout: the header,
    [Type], [Name], then [Comment], [Icon], [Exec], [Path] when not empty,
    [Terminal], then [Categories], [Keywords], [URL], [MimeType],
    [StartupWMClass] when not empty, [Hidden], and [X-Env-Vars] when not
    empty, with [Terminal] and [Hidden] written as [true] or [false]; the
    text is these lines joined by line feeds and one more line feed, which
    is the only one at its end when [env_vars] does not end with one. *)
Theorem serialize_layout (e : DesktopEntry.t) :
  to_lines e = layout e
  /\ to_string e = join (String LF "") (layout e) +:+ String LF ""
  /\ (endswith (String LF "") (env_vars e) = false ->
      ends_with_one_newline (to_string e) = true).
Proof.
  split; [apply to_lines_layout|]. split; [apply to_string_layout|].
  intros Hev. rewrite to_string_layout. apply one_newline.
  destruct (layout_last e) as (pre & Hpre & ->).
  rewrite join_snoc by assumption.
  rewrite <- sapp_assoc.
  destruct (env_vars e) as [|c ev] eqn:E; simpl truthy; cbv iota.
  - rewrite endswith_char_app by (destruct (hidden e); discriminate).
    destruct (hidden e); reflexivity.
  - rewrite endswith_char_app by discriminate.
    rewrite endswith_char_app by discriminate. exact Hev.
Qed.


Lemma serialize_layout_witness :
  endswith (String LF "") (env_vars Examples.wrapped_entry) = false
  /\ ends_with_one_newline (to_string Examples.wrapped_entry) = true.
Proof.
  split; [reflexivity|].
  apply (proj2 (proj2 (serialize_layout Examples.wrapped_entry))). reflexivity.
Defined.

(** An entry whose [env_vars] ends with a line feed is written with two
    line feeds at the end. *)
Lemma two_newlines_at_end :
  ends_with_one_newline (to_string Examples.newline_entry) = false
  /\ endswith (String LF (String LF "")) (to_string Examples.newline_entry) = true.
Proof. split; vm_compute; reflexivity. Qed.

End Serialize.

(** ** Parsing *)
Module Parse.
Import PyStr Spec DesktopEntry PyStrFacts.

(** The loop of [from_string] records the assignments of the text, a later
    one replacing an earlier one. *)
Lemma scan_line_lookup (ls : list string) (d : gmap string string) (b : bool) (k : string) :
  fst (foldl scan_line (d, b) ls) !! k
  = foldl (fun acc kv => if String.eqb (fst kv) k then Some (snd kv) else acc)
          (d !! k) (assignments b ls).
Proof.
  revert d b. induction ls as [|raw ls IH]; intros d b; [reflexivity|].
  change (foldl scan_line (d, b) (raw :: ls))
    with (foldl scan_line (scan_line (d, b) raw) ls).
  simpl assignments. unfold scan_line at 2.
  destruct (negb (truthy (strip raw)) || startswith "#" (strip raw)); [apply IH|].
  destruct (startswith "[" (strip raw) && endswith "]" (strip raw)); [apply IH|].
  destruct (b && has_char "=" (strip raw)); [|apply IH].
  destruct (partition "=" (strip raw)) as [[key sep] value].
  rewrite IH. simpl foldl. f_equal.
  rewrite lookup_insert. destruct (String.eqb_spec (strip key) k) as [->| Hne].
  - now rewrite decide_True.
  - now rewrite decide_False.
Qed.

Lemma scan_lookup content k :
  scan content !! k = last_assigned k (assignments_of content).
Proof. unfold scan, last_assigned, assignments_of. now rewrite scan_line_lookup. Qed.

Lemma last_assigned_snoc k kvs kv :
  last_assigned k (kvs ++ [kv])
  = if String.eqb (fst kv) k then Some (snd kv) else last_assigned k kvs.
Proof. unfold last_assigned. now rewrite foldl_snoc. Qed.

Lemma last_assigned_None k kvs : last_assigned k kvs = None <-> k ∉ kvs.*1.
Proof.
  induction kvs as [|kv kvs IH] using rev_ind.
  - split; [intros _; apply not_elem_of_nil|reflexivity].
  - rewrite last_assigned_snoc, fmap_app, not_elem_of_app. simpl.
    destruct (String.eqb_spec (fst kv) k) as [->|Hne].
    + split; [discriminate|]. intros [_ H]. exfalso. apply H. now left.
    + rewrite IH. split; [|tauto]. intros H. split; [exact H|].
      intros [->|H']%elem_of_cons; [congruence|]. now apply elem_of_nil in H'.
Qed.

Lemma get_omitted content k dflt : omitted k content -> get (scan content) k dflt = dflt.
Proof.
  unfold omitted, get. intros H%last_assigned_None. now rewrite scan_lookup, H.
Qed.

Lemma get_assigned content k v dflt :
  last_assigned k (assignments_of content) = Some v -> get (scan content) k dflt = v.
Proof. unfold get. intros H. now rewrite scan_lookup, H. Qed.

(** [v.lower() == "true"] holds for the sixteen spellings of [true]. *)
Lemma lower_char_is (c x : ascii) (X : ascii) :
  (x = "t" /\ X = "T" \/ x = "r" /\ X = "R" \/ x = "u" /\ X = "U" \/ x = "e" /\ X = "E")%char ->
  Ascii.eqb (lower_char c) x = (Ascii.eqb c x || Ascii.eqb c X).
Proof.
  intros H.
  destruct c as [[] [] [] [] [] [] [] []];
    destruct H as [[-> ->]|[[-> ->]|[[-> ->]|[-> ->]]]]; reflexivity.
Qed.

Lemma lower_true v : String.eqb (lower v) "true" = ci_true v.
Proof.
  destruct v as [|a [|b [|c [|d [|x v]]]]]; try reflexivity.
  - simpl. now destruct (Ascii.eqb (lower_char a) "t").
  - simpl. now destruct (Ascii.eqb (lower_char a) "t"), (Ascii.eqb (lower_char b) "r").
  - simpl. now destruct (Ascii.eqb (lower_char a) "t"), (Ascii.eqb (lower_char b) "r"),
      (Ascii.eqb (lower_char c) "u").
  - unfold ci_true. simpl.
    rewrite (lower_char_is a "t" "T"), (lower_char_is b "r" "R"),
      (lower_char_is c "u" "U"), (lower_char_is d "e" "E") by tauto.
    destruct (_ || _); [|reflexivity]. simpl. destruct (_ || _); [|reflexivity]. simpl.
    destruct (_ || _); [|reflexivity]. simpl. destruct (_ || _); reflexivity.
  - simpl. destruct (Ascii.eqb (lower_char a) "t"), (Ascii.eqb (lower_char b) "r"),
      (Ascii.eqb (lower_char c) "u"), (Ascii.eqb (lower_char d) "e"); reflexivity.
Qed.


Lemma cmd_start_all_assignments parts i :
  forallb (has_char "=") parts = true -> cmd_start_from i parts = 0.
Proof.
  revert i. induction parts as [|p parts IH]; intros i H; [reflexivity|].
  simpl in *. apply andb_true_iff in H as [Hp Hps]. rewrite Hp. simpl. now apply IH.
Qed.

Lemma unwrap_exec_env ev rest :
  truthy ev = true ->
  unwrap_exec ev ("env " +:+ rest)
  = join " " (drop (cmd_start_idx (split rest)) (split rest)).
Proof.
  intros H. unfold unwrap_exec. rewrite H.
  change ("env " +:+ rest) with (String "e" (String "n" (String "v" (String " " rest)))).
  unfold startswith. simpl. now destruct rest.
Qed.

Lemma unwrap_exec_nil ev : unwrap_exec ev "" = "".
Proof. unfold unwrap_exec. now rewrite andb_false_r. Qed.




(** C4. [from_string] returns an entry for every text.  A key that is
    assigned nowhere leaves its field at the default: [Unnamed] for [Name],
    [Application] for [Type], the empty text for the other textual fields;
    [terminal] and [hidden] are true exactly when the last value assigned
    is a spelling of [true] in any mix of cases, and false when there is
    none. *)
Theorem parse_total_defaults (content : string) (fp : option string) :
  exists e, from_string content fp = e
  /\ file_path e = fp
  /\ (omitted "Name" content -> name e = "Unnamed")
  /\ (omitted "Type" content -> entry_type e = "Application")
  /\ terminal e = from_option ci_true false (last_assigned "Terminal" (assignments_of content))
  /\ hidden e = from_option ci_true false (last_assigned "Hidden" (assignments_of content))
  /\ (omitted "Terminal" content -> terminal e = false)
  /\ (omitted "Hidden" content -> hidden e = false)
  /\ (omitted "Exec" content -> exec e = "")
  /\ (omitted "Comment" content -> comment e = "")
  /\ (omitted "Icon" content -> icon e = "")
  /\ (omitted "Path" content -> path e = "")
  /\ (omitted "Categories" content -> categories e = "")
  /\ (omitted "Keywords" content -> keywords e = "")
  /\ (omitted "URL" content -> url e = "")
  /\ (omitted "MimeType" content -> mime_type e = "")
  /\ (omitted "StartupWMClass" content -> startup_wm_class e = "")
  /\ (omitted "X-Env-Vars" content -> env_vars e = "").
Proof.
  eexists. split; [reflexivity|]. unfold from_string. simpl.
  assert (forall k, String.eqb (lower (get (scan content) k "")) "true"
                    = from_option ci_true false (last_assigned k (assignments_of content))) as Hb.
  { intros k. rewrite lower_true. unfold get. rewrite scan_lookup.
    now destruct (last_assigned k (assignments_of content)). }
  repeat split; try (intros H; now apply get_omitted); try apply Hb.
  - intros H%last_assigned_None. now rewrite Hb, H.
  - intros H%last_assigned_None. now rewrite Hb, H.
  - intros H. rewrite (get_omitted _ "Exec") by assumption. apply unwrap_exec_nil.
Qed.

Lemma not_in_by_computation (k : string) (l : list string) :
  bool_decide (k ∈ l) = false -> k ∉ l.
Proof. intros H Hin. apply (bool_decide_pack _) in Hin. rewrite H in Hin. exact Hin. Qed.

Lemma parse_total_defaults_witness :
  omitted "Name" Examples.assignments_only_text
  /\ name (from_string Examples.assignments_only_text None) = "Unnamed".
Proof.
  assert (omitted "Name" Examples.assignments_only_text) as H
    by (apply not_in_by_computation; vm_compute; reflexivity).
  split; [exact H|].
  destruct (parse_total_defaults Examples.assignments_only_text None)
    as (e & <- & _ & Hname & _).
  exact (Hname H).
Defined.

(** C10. When [X-Env-Vars] is set and the command read is [env] followed
    by [rest], the command stored is made of the words of [rest] from some
    word on, joined by single spaces, so that no run of whitespace is left
    in it; when every word of [rest] contains an [=], it is all of them. *)
Theorem unwrap_rejoins (content : string) (fp : option string) (ev rest : string) :
  last_assigned "X-Env-Vars" (assignments_of content) = Some ev ->
  truthy ev = true ->
  last_assigned "Exec" (assignments_of content) = Some ("env " +:+ rest) ->
  (forallb (has_char "=") (split rest) = true ->
   exec (from_string content fp) = join " " (split rest))
  /\ (exists n, exec (from_string content fp) = join " " (drop n (split rest)))
  /\ join " " (split (exec (from_string content fp))) = exec (from_string content fp).
Proof.
  intros Hv Ht Hx. unfold from_string. simpl.
  rewrite (get_assigned _ _ _ _ Hx), (get_assigned _ _ _ _ Hv).
  rewrite unwrap_exec_env by assumption.
  split; [|split].
  - intros Hall. unfold cmd_start_idx. now rewrite cmd_start_all_assignments.
  - eauto.
  - rewrite split_join; [reflexivity|].
    apply Forall_drop. apply split_words.
Qed.

Lemma unwrap_rejoins_witness :
  exec (from_string Examples.assignments_only_text None) = "A=1 B=2".
Proof.
  refine (proj1 (unwrap_rejoins Examples.assignments_only_text None "A=1" " A=1   B=2" _ _ _) _);
    reflexivity.
Defined.

End Parse.

(** ** Writing an entry and reading it back *)
Module Roundtrip.
Import PyStr Spec DesktopEntry PyStrFacts.

(** *** What the string operations keep of a property of all characters *)

Lemma all_chars_lstrip q s : all_chars q s = true -> all_chars q (lstrip s) = true.
Proof.
  induction s as [|c s IH]; [reflexivity|]. simpl.
  intros [Hc Hs]%andb_true_iff. destruct (is_space c); [auto|]. simpl. now rewrite Hc, Hs.
Qed.

Lemma all_chars_rstrip q s : all_chars q s = true -> all_chars q (rstrip s) = true.
Proof.
  induction s as [|c s IH]; [reflexivity|]. simpl.
  intros [Hc Hs]%andb_true_iff. specialize (IH Hs).
  destruct (rstrip s); [destruct (is_space c); simpl; now rewrite ?Hc|].
  cbn [all_chars] in *. now rewrite Hc, IH.
Qed.

Lemma all_chars_strip q s : all_chars q s = true -> all_chars q (strip s) = true.
Proof. intros. now apply all_chars_rstrip, all_chars_lstrip. Qed.

Lemma all_chars_fields q p s :
  all_chars q s = true -> Forall (fun f => all_chars q f = true) (fields_list p s).
Proof.
  induction s as [|c s IH]; [repeat constructor|]. simpl.
  intros [Hc Hs]%andb_true_iff. specialize (IH Hs).
  rewrite fields_list_cons. destruct (p c).
  - now constructor.
  - pose proof (fields_list_nonempty p s).
    destruct (fields_list p s); [congruence|].
    inversion IH; subst. constructor; [|assumption]. simpl. now rewrite Hc.
Qed.

Lemma all_chars_join q sep l :
  all_chars q sep = true -> Forall (fun f => all_chars q f = true) l ->
  all_chars q (join sep l) = true.
Proof.
  intros Hsep H. induction H as [|x l Hx Hl IH]; [reflexivity|].
  destruct l as [|y l]; [exact Hx|].
  rewrite join_cons2, !all_chars_app, Hx, Hsep, IH. reflexivity.
Qed.

Lemma all_chars_env_parts q ev :
  all_chars q ev = true -> Forall (fun f => all_chars q f = true) (env_parts ev).
Proof.
  intros H. unfold env_parts, split_on.
  pose proof (all_chars_fields q (Ascii.eqb ";") ev H) as HF.
  induction HF as [|f fs Hf _ IH]; [constructor|].
  simpl. destruct (truthy (strip f)); [constructor; [now apply all_chars_strip|]|]; exact IH.
Qed.

(** *** One line of the layout under [scan_line] *)

Lemma startswith_char a c s t :
  startswith (String a "") (String c s +:+ t) = startswith (String a "") (String c s).
Proof.
  unfold startswith. rewrite sapp_cons. cbn [String.prefix].
  destruct (ascii_dec a c); [|reflexivity]. now destruct (s +:+ t), s.
Qed.

Lemma scan_line_header d b : scan_line (d, b) "[Desktop Entry]" = (d, true).
Proof. reflexivity. Qed.

(** A line [key=value] inside the section assigns the value to the key. *)
Lemma scan_line_assign d k v :
  plain_key k = true -> strip v = v ->
  scan_line (d, true) (k +:+ "=" +:+ v) = (<[k := v]> d, true).
Proof.
  unfold plain_key. intros H Hv.
  apply andb_true_iff in H as [H H0]. apply andb_true_iff in H as [H H1].
  apply andb_true_iff in H as [H H2]. apply andb_true_iff in H as [H H3].
  apply String.eqb_eq in H3. apply negb_true_iff in H0, H1, H2.
  destruct k as [|c k]; [discriminate|].
  destruct (strip_fix _ H3) as [Hlk Hrk].
  assert (strip (String c k +:+ "=" +:+ v) = String c k +:+ "=" +:+ v) as Hline.
  { rewrite <- sapp_assoc. apply strip_key_value; try assumption.
    - rewrite sapp_cons. apply lstrip_fix. now apply lstrip_fix in Hlk.
    - discriminate.
    - intros _. now rewrite rstrip_app_r. }
  assert (truthy (String c k +:+ "=" +:+ v) = true) as Htr by reflexivity.
  assert (has_char "=" (String c k +:+ "=" +:+ v) = true) as Hhc.
  { rewrite has_char_app, H0. reflexivity. }
  assert (partition "=" (String c k +:+ "=" +:+ v) = (String c k, "=", v)) as Hpart.
  { now apply partition_first. }
  unfold scan_line. rewrite Hline, Htr, !startswith_char, H1, H2, Hhc, Hpart.
  cbn [negb orb andb]. now rewrite H3, Hv.
Qed.

Lemma scan_opt_line d k v :
  plain_key k = true -> strip v = v ->
  foldl scan_line (d, true) (opt_line (k +:+ "=") v) = (put k v d, true).
Proof.
  intros Hk Hv. unfold opt_line, put. destruct (truthy v); [|reflexivity].
  simpl. rewrite sapp_assoc. now apply scan_line_assign.
Qed.

Lemma clean_strip v : clean v = true -> strip v = v.
Proof. unfold clean. intros [_ H]%andb_true_iff. now apply String.eqb_eq. Qed.

Lemma clean_no_linebreak v : clean v = true -> no_linebreak v = true.
Proof. unfold clean. now intros [H _]%andb_true_iff. Qed.

(** The command of a stable entry, wrapped or not, is trimmed. *)
Lemma exec_value_strip e :
  clean (exec e) = true -> truthy (exec e) = true -> strip (exec_value e) = exec_value e.
Proof.
  intros Hc Ht. apply clean_strip in Hc. unfold exec_value.
  destruct (env_parts (env_vars e)) as [|p ps]; [exact Hc|].
  rewrite <- !sapp_assoc. apply strip_key_value; try assumption.
  - reflexivity.
  - discriminate.
  - intros E. rewrite E in Ht. discriminate.
Qed.

Lemma exec_value_no_linebreak e :
  no_linebreak (exec e) = true -> no_linebreak (env_vars e) = true ->
  no_linebreak (exec_value e) = true.
Proof.
  unfold no_linebreak. intros Hx Hv. unfold exec_value.
  pose proof (all_chars_env_parts _ _ Hv) as HF.
  destruct (env_parts (env_vars e)) as [|p ps]; [exact Hx|].
  rewrite !all_chars_app.
  rewrite (all_chars_join _ " " (p :: ps)) by (reflexivity || exact HF).
  now rewrite Hx.
Qed.

(** *** The dictionary read from the layout *)

Lemma scan_exec_line d e :
  clean (exec e) = true ->
  foldl scan_line (d, true) (if truthy (exec e) then ["Exec=" +:+ exec_value e] else [])
  = ((if truthy (exec e) then <["Exec" := exec_value e]> else id) d, true).
Proof.
  intros Hc. destruct (truthy (exec e)) eqn:Ht; [|reflexivity].
  cbn [foldl]. change ("Exec=" +:+ exec_value e) with ("Exec" +:+ "=" +:+ exec_value e).
  apply scan_line_assign; [reflexivity|]. now apply exec_value_strip.
Qed.

Lemma stable_fields e :
  stable e = true ->
  clean (name e) = true /\ clean (exec e) = true /\ clean (entry_type e) = true
  /\ clean (comment e) = true /\ clean (icon e) = true /\ clean (path e) = true
  /\ clean (categories e) = true /\ clean (keywords e) = true /\ clean (url e) = true
  /\ clean (mime_type e) = true /\ clean (env_vars e) = true
  /\ clean (startup_wm_class e) = true /\ exec_stable e = true.
Proof.
  unfold stable, clean_fields. intros H.
  do 12 (apply andb_true_iff in H as [H ?]). repeat split; assumption.
Qed.

Ltac as_assignment key :=
  match goal with
  | |- context [opt_line ?kv ?v] =>
      unify kv (key +:+ "=");
      change (opt_line kv v) with (opt_line (key +:+ "=") v);
      rewrite (scan_opt_line _ key v) by (reflexivity || now apply clean_strip)
  end.

Lemma scan_layout e :
  stable e = true -> foldl scan_line (∅, false) (layout e) = (dict_of e, true).
Proof.
  intros (Hn & Hx & Ht & Hc & Hi & Hp & Hcat & Hk & Hu & Hm & Hv & Hw & _)%stable_fields.
  unfold layout. rewrite !foldl_app. cbn [foldl]. rewrite scan_line_header.
  change ("Type=" +:+ entry_type e) with ("Type" +:+ "=" +:+ entry_type e).
  change ("Name=" +:+ name e) with ("Name" +:+ "=" +:+ name e).
  rewrite !scan_line_assign by (reflexivity || now apply clean_strip).
  as_assignment "Comment". as_assignment "Icon".
  rewrite scan_exec_line by assumption.
  as_assignment "Path".
  change ("Terminal=" +:+ ?x) with ("Terminal" +:+ "=" +:+ x).
  rewrite scan_line_assign by (reflexivity || now destruct (terminal e)).
  as_assignment "Categories". as_assignment "Keywords". as_assignment "URL".
  as_assignment "MimeType". as_assignment "StartupWMClass".
  change ("Hidden=" +:+ ?x) with ("Hidden" +:+ "=" +:+ x).
  rewrite scan_line_assign by (reflexivity || now destruct (hidden e)).
  as_assignment "X-Env-Vars".
  reflexivity.
Qed.

Lemma layout_no_linebreak e :
  stable e = true -> Forall (fun l => no_linebreak l = true) (layout e).
Proof.
  intros (Hn & Hx & Ht & Hc & Hi & Hp & Hcat & Hk & Hu & Hm & Hv & Hw & _)%stable_fields.
  assert (forall k v, no_linebreak k = true -> clean v = true ->
            Forall (fun l => no_linebreak l = true) (opt_line k v)) as Hopt.
  { intros k v Hk' Hv'. unfold opt_line. destruct (truthy v); [|constructor].
    repeat constructor. unfold no_linebreak in *.
    rewrite all_chars_app, Hk'. now apply clean_no_linebreak. }
  assert (forall k v, no_linebreak k = true -> clean v = true ->
            no_linebreak (k +:+ v) = true) as Hline.
  { intros k v Hk' Hv'. unfold no_linebreak in *.
    rewrite all_chars_app, Hk'. now apply clean_no_linebreak. }
  unfold layout. repeat apply Forall_app_2; try (apply Hopt; [reflexivity|assumption]).
  - repeat constructor; try (apply Hline; [reflexivity|assumption]).
  - destruct (truthy (exec e)); repeat constructor.
    unfold no_linebreak. rewrite all_chars_app. simpl.
    apply exec_value_no_linebreak; now apply clean_no_linebreak.
  - repeat constructor. now destruct (terminal e).
  - repeat constructor. now destruct (hidden e).
Qed.

(** The text of a stable entry is read as the dictionary of its fields. *)
Lemma scan_to_string e : stable e = true -> scan (to_string e) = dict_of e.
Proof.
  intros H. unfold scan. rewrite Serialize.to_string_layout.
  rewrite splitlines_join.
  - now rewrite scan_layout.
  - unfold layout. discriminate.
  - now apply layout_no_linebreak.
Qed.

(** *** Looking the fields up *)

Lemma get_empty k dflt : get ∅ k dflt = dflt.
Proof. reflexivity. Qed.

Lemma get_insert k k' v (d : gmap string string) dflt :
  get (<[k' := v]> d) k dflt = if String.eqb k' k then v else get d k dflt.
Proof.
  unfold get. rewrite lookup_insert.
  destruct (String.eqb_spec k' k); [now rewrite decide_True|now rewrite decide_False].
Qed.

Lemma get_put k k' v d dflt :
  get (put k' v d) k dflt = if String.eqb k' k && truthy v then v else get d k dflt.
Proof.
  unfold put. destruct (truthy v); [|now rewrite andb_false_r].
  now rewrite get_insert, andb_true_r.
Qed.

Lemma get_exec_put k k' (b : bool) v (d : gmap string string) dflt :
  get ((if b then <[k' := v]> else id) d) k dflt
  = if String.eqb k' k && b then v else get d k dflt.
Proof.
  destruct b; [|now rewrite andb_false_r]. now rewrite get_insert, andb_true_r.
Qed.

Lemma if_truthy v : (if truthy v then v else "") = v.
Proof. now destruct v. Qed.

Ltac lookup_field :=
  unfold dict_of;
  repeat (rewrite get_put || rewrite get_insert || rewrite get_exec_put || rewrite get_empty);
  cbn [String.eqb Ascii.eqb Bool.eqb andb];
  rewrite ?if_truthy; reflexivity.

Lemma dict_of_fields e :
  get (dict_of e) "Name" "Unnamed" = name e
  /\ get (dict_of e) "Type" "Application" = entry_type e
  /\ get (dict_of e) "Comment" "" = comment e
  /\ get (dict_of e) "Icon" "" = icon e
  /\ get (dict_of e) "Path" "" = path e
  /\ get (dict_of e) "Categories" "" = categories e
  /\ get (dict_of e) "Keywords" "" = keywords e
  /\ get (dict_of e) "URL" "" = url e
  /\ get (dict_of e) "MimeType" "" = mime_type e
  /\ get (dict_of e) "StartupWMClass" "" = startup_wm_class e
  /\ get (dict_of e) "X-Env-Vars" "" = env_vars e
  /\ get (dict_of e) "Terminal" "" = (if terminal e then "true" else "false")
  /\ get (dict_of e) "Hidden" "" = (if hidden e then "true" else "false")
  /\ get (dict_of e) "Exec" "" = (if truthy (exec e) then exec_value e else "").
Proof. repeat split; lookup_field. Qed.

(** *** Unwrapping what was wrapped *)

Lemma cmd_start_after_assignments (A B : list string) (w : string) (i : nat) :
  forallb (has_char "=") A = true -> has_char "=" w = false ->
  cmd_start_from i (A ++ w :: B) = i + length A.
Proof.
  revert i. induction A as [|a A IH]; intros i HA Hw.
  - simpl. rewrite Hw. simpl. lia.
  - simpl in HA. apply andb_true_iff in HA as [Ha HA].
    simpl. rewrite Ha. simpl. rewrite IH by assumption. lia.
Qed.

Lemma unwrap_exec_value e :
  clean (exec e) = true -> exec_stable e = true ->
  unwrap_exec (env_vars e) (if truthy (exec e) then exec_value e else "") = exec e.
Proof.
  intros Hc Hs. unfold exec_stable, exec_value in *.
  destruct (exec e) as [|x0 x] eqn:Ex; [apply Parse.unwrap_exec_nil|].
  simpl truthy in *. cbv iota. cbn [andb] in Hs.
  destruct (env_vars e) as [|v0 v] eqn:Ev; [reflexivity|].
  simpl truthy in Hs. cbv iota in Hs.
  destruct (env_parts (String v0 v)) as [|p ps] eqn:Ep.
  - unfold unwrap_exec. apply negb_true_iff in Hs. rewrite Hs. now rewrite andb_false_r.
  - apply andb_true_iff in Hs as [Hs Hw]. apply andb_true_iff in Hs as [HA Hj].
    apply String.eqb_eq in Hj. apply negb_true_iff in Hw.
    rewrite Parse.unwrap_exec_env by reflexivity.
    change (join " " (p :: ps) +:+ " " +:+ String x0 x)
      with (join " " (p :: ps) +:+ String " "%char (String x0 x)).
    rewrite split_sep by reflexivity.
    destruct (split (String x0 x)) as [|w ws] eqn:Ew; [discriminate|].
    simpl hd in Hw. unfold cmd_start_idx.
    rewrite cmd_start_after_assignments by assumption.
    simpl. now rewrite drop_app_length.
Qed.

(** Reading back the text of a stable entry gives the entry. *)
Lemma from_string_to_string e fp :
  stable e = true -> from_string (to_string e) fp = set_file_path e fp.
Proof.
  intros H. pose proof (stable_fields e H) as (_ & Hx & _ & _ & _ & _ & _ & _ & _ & _ & _ & _ & Hs).
  unfold from_string. rewrite scan_to_string by assumption.
  destruct (dict_of_fields e)
    as (-> & -> & -> & -> & -> & -> & -> & -> & -> & -> & -> & -> & -> & ->).
  rewrite unwrap_exec_value by assumption.
  unfold set_file_path. f_equal; [now destruct (terminal e)|now destruct (hidden e)].
Qed.

(** The text depends on the fields only, not on the path of the file. *)
Lemma to_string_set_file_path e fp : to_string (set_file_path e fp) = to_string e.
Proof. rewrite !Serialize.to_string_layout. reflexivity. Qed.

(** C1, as the program has it. For a stable entry, one whose textual
    fields hold no line boundary and no whitespace at their ends and whose
    command and variables wrap and unwrap to themselves, writing, reading
    and writing again gives the text of the first writing. *)
Theorem serialize_parse_serialize (e : DesktopEntry.t) (fp : option string) :
  stable e = true ->
  to_string (from_string (to_string e) fp) = to_string e.
Proof.
  intros H. rewrite from_string_to_string by assumption.
  apply to_string_set_file_path.
Qed.

Lemma serialize_parse_serialize_witness :
  stable Examples.wrapped_entry = true
  /\ to_string (from_string (to_string Examples.wrapped_entry) None)
     = to_string Examples.wrapped_entry.
Proof.
  split; [reflexivity|]. apply serialize_parse_serialize. reflexivity.
Defined.

(** An entry whose name begins with a space is written, read back without
    the space, and written differently. *)
Lemma padded_name_changes :
  to_string (from_string (to_string Examples.padded_entry) None)
  <> to_string Examples.padded_entry.
Proof. vm_compute. discriminate. Qed.

End Roundtrip.

(** ** What reading normalizes *)
Module Normalize.
Import PyStr Spec DesktopEntry PyStrFacts.

(** *** [strip] twice is [strip] once *)

Lemma lstrip_idem s : lstrip (lstrip s) = lstrip s.
Proof.
  induction s as [|c s IH]; [reflexivity|]. simpl.
  destruct (is_space c) eqn:E; [exact IH|]. simpl. now rewrite E.
Qed.

Lemma rstrip_idem s : rstrip (rstrip s) = rstrip s.
Proof.
  induction s as [|c s IH]; [reflexivity|]. simpl.
  destruct (rstrip s) as [|d r] eqn:E.
  - destruct (is_space c) eqn:Ec; [reflexivity|]. simpl. now rewrite Ec.
  - cbn [rstrip]. cbn [rstrip] in IH. now rewrite IH.
Qed.

Lemma lstrip_rstrip s : lstrip s = s -> lstrip (rstrip s) = rstrip s.
Proof.
  intros H. destruct s as [|c s]; [reflexivity|].
  apply lstrip_fix in H. apply lstrip_fix. simpl.
  destruct (rstrip s); [now rewrite H|exact H].
Qed.

Lemma strip_idem s : strip (strip s) = strip s.
Proof.
  unfold strip. rewrite lstrip_rstrip by apply lstrip_idem. apply rstrip_idem.
Qed.

(** *** The lines of a text hold no line boundary *)

Lemma lines_list_break c s :
  is_linebreak c = true ->
  lines_list (String c s)
  = "" :: match s with
          | String d s' => if Ascii.eqb c CR && Ascii.eqb d LF then lines_list s'
                           else lines_list s
          | EmptyString => [""]
          end.
Proof.
  intros H. unfold lines_list. cbn [line_fields]. rewrite H.
  destruct s as [|d s']; [reflexivity|].
  destruct (Ascii.eqb c CR && Ascii.eqb d LF).
  - now destruct (line_fields s').
  - now destruct (line_fields (String d s')).
Qed.

Lemma lines_list_no_linebreak s :
  Forall (fun l => no_linebreak l = true) (lines_list s).
Proof.
  enough (Forall (fun l => no_linebreak l = true) (lines_list s)
          /\ forall c, Forall (fun l => no_linebreak l = true) (lines_list (String c s)))
    as [H _] by exact H.
  induction s as [|d s [IH1 IH2]].
  - split; [repeat constructor|]. intros c.
    destruct (is_linebreak c) eqn:E.
    + rewrite lines_list_break by assumption. repeat constructor.
    + rewrite lines_list_cons by assumption. repeat constructor.
      unfold no_linebreak. simpl. now rewrite E.
  - split; [apply IH2|]. intros c.
    destruct (is_linebreak c) eqn:E.
    + rewrite lines_list_break by assumption.
      constructor; [reflexivity|]. destruct (_ && _); [exact IH1|apply IH2].
    + rewrite lines_list_cons by assumption.
      specialize (IH2 d). destruct (lines_list (String d s)) as [|f fs].
      * repeat constructor. unfold no_linebreak. simpl. now rewrite E.
      * inversion IH2; subst. constructor; [|assumption].
        unfold no_linebreak in *. simpl. now rewrite E.
Qed.

Lemma drop_last_empty_Forall (P : string -> Prop) l :
  Forall P l -> Forall P (drop_last_empty l).
Proof.
  induction 1 as [|x l Hx Hl IH]; [constructor|].
  simpl. destruct l as [|y l].
  - destruct (truthy x); repeat constructor; assumption.
  - constructor; assumption.
Qed.

Lemma splitlines_no_linebreak s :
  Forall (fun l => no_linebreak l = true) (splitlines s).
Proof. apply drop_last_empty_Forall, lines_list_no_linebreak. Qed.

(** *** The values the loop records are clean *)

Lemma all_chars_partition q c s :
  all_chars q s = true ->
  all_chars q (fst (fst (partition c s))) = true /\ all_chars q (snd (partition c s)) = true.
Proof.
  induction s as [|d s IH]; [now split|]. simpl.
  intros [Hd Hs]%andb_true_iff. destruct (Ascii.eqb c d); [now split|].
  destruct (IH Hs) as [H1 H2]. destruct (partition c s) as [[k sep] v].
  simpl in *. now rewrite Hd, H1, H2.
Qed.

Lemma clean_strip_of v : no_linebreak v = true -> clean (strip v) = true.
Proof.
  intros H. unfold clean. apply andb_true_iff. split.
  - now apply Roundtrip.all_chars_strip.
  - apply String.eqb_eq, strip_idem.
Qed.

Lemma scan_line_clean (d : gmap string string) b raw :
  map_Forall (fun _ v => clean v = true) d -> no_linebreak raw = true ->
  map_Forall (fun _ v => clean v = true) (fst (scan_line (d, b) raw)).
Proof.
  intros Hd Hraw. unfold scan_line.
  destruct (negb (truthy (strip raw)) || startswith "#" (strip raw)); [exact Hd|].
  destruct (startswith "[" (strip raw) && endswith "]" (strip raw)); [exact Hd|].
  destruct (b && has_char "=" (strip raw)); [|exact Hd].
  pose proof (all_chars_partition (fun c => negb (is_linebreak c)) "=" (strip raw)
                (Roundtrip.all_chars_strip _ _ Hraw)) as [_ Hv].
  destruct (partition "=" (strip raw)) as [[key sep] value]. simpl in *.
  apply map_Forall_insert_2; [|exact Hd]. now apply clean_strip_of.
Qed.

Lemma scan_clean content :
  map_Forall (fun _ v => clean v = true) (scan content).
Proof.
  unfold scan.
  assert (forall ls (d : gmap string string) b,
            map_Forall (fun _ v => clean v = true) d ->
            Forall (fun l => no_linebreak l = true) ls ->
            map_Forall (fun _ v => clean v = true) (fst (foldl scan_line (d, b) ls))) as H.
  { induction ls as [|raw ls IH]; intros d b Hd Hls; [exact Hd|].
    inversion Hls; subst. cbn [foldl].
    pose proof (scan_line_clean d b raw Hd ltac:(assumption)) as Hstep.
    destruct (scan_line (d, b) raw) as [d' b']. now apply IH. }
  apply H; [apply map_Forall_empty|apply splitlines_no_linebreak].
Qed.

Lemma get_clean content k dflt :
  clean dflt = true -> clean (get (scan content) k dflt) = true.
Proof.
  intros Hd. unfold get. destruct (scan content !! k) eqn:E; [|exact Hd].
  exact (scan_clean content k s E).
Qed.

(** *** The command left by unwrapping is clean *)

Lemma word_no_linebreak w : is_word w -> no_linebreak w = true.
Proof.
  intros [_ H]. unfold no_linebreak. induction w as [|c w IH]; [reflexivity|].
  simpl in *. apply andb_true_iff in H as [Hc Hw]. rewrite IH by assumption.
  rewrite andb_true_r. clear - Hc.
  destruct c as [[] [] [] [] [] [] [] []]; try reflexivity; discriminate.
Qed.

Lemma word_strip w : is_word w -> strip w = w.
Proof.
  intros [Ht H]. unfold strip.
  assert (lstrip w = w) as ->.
  { apply lstrip_fix. destruct w as [|c w]; [exact I|]. simpl in H.
    apply andb_true_iff in H as [Hc _]. now apply negb_true_iff. }
  clear Ht. induction w as [|c w IH]; [reflexivity|].
  simpl in *. apply andb_true_iff in H as [Hc Hw]. apply negb_true_iff in Hc.
  rewrite IH by assumption. destruct w; [now rewrite Hc|reflexivity].
Qed.

Lemma join_words_clean ws : Forall is_word ws -> clean (join " " ws) = true.
Proof.
  intros H. unfold clean. apply andb_true_iff. split.
  - apply Roundtrip.all_chars_join; [reflexivity|].
    eapply Forall_impl; [exact H|]. intros w Hw. now apply word_no_linebreak.
  - apply String.eqb_eq. induction H as [|w ws Hw Hws IH]; [reflexivity|].
    destruct ws as [|w' ws]; [now apply word_strip|].
    rewrite join_cons2, <- sapp_assoc.
    apply strip_key_value.
    + destruct Hw as [Ht Hc]. destruct w as [|c w]; [discriminate|].
      rewrite sapp_cons. apply lstrip_fix. simpl in Hc.
      apply andb_true_iff in Hc as [Hc _]. now apply negb_true_iff.
    + destruct w; discriminate.
    + exact IH.
    + intros E. exfalso. inversion Hws as [|? ? [Hw' _] _]; subst.
      destruct w' as [|c w']; [discriminate|].
      destruct ws; [discriminate E|].
      rewrite join_cons2, sapp_cons in E. discriminate E.
Qed.

Lemma unwrap_exec_clean ev x : clean x = true -> clean (unwrap_exec ev x) = true.
Proof.
  intros Hx. unfold unwrap_exec.
  destruct (truthy ev && startswith "env " x); [|exact Hx].
  apply join_words_clean, Forall_drop, split_words.
Qed.

(** Every textual field of an entry read from a text is clean: reading
    leaves only the condition on the command and the variables open. *)
Lemma parsed_fields_clean content fp : clean_fields (from_string content fp) = true.
Proof.
  unfold clean_fields, from_string. cbn [name exec entry_type comment icon path categories
    keywords url mime_type env_vars startup_wm_class].
  rewrite unwrap_exec_clean by now apply get_clean.
  rewrite !get_clean by reflexivity. reflexivity.
Qed.

(** An entry read from a text whose command and variables wrap and unwrap
    to themselves is written, read and written again as it was written
    first. *)
Lemma normalized_roundtrip content fp fp' :
  exec_stable (from_string content fp) = true ->
  to_string (from_string (to_string (from_string content fp)) fp')
  = to_string (from_string content fp).
Proof.
  intros H. rewrite Roundtrip.from_string_to_string.
  - apply Roundtrip.to_string_set_file_path.
  - unfold stable. now rewrite parsed_fields_clean.
Qed.

(** A command with two spaces, read next to [X-Env-Vars] without being
    wrapped, is wrapped on writing and comes back with one space: the text
    written after reading once more is another. *)
Lemma spaced_command_changes :
  to_string (from_string (to_string (from_string Examples.spaced_text None)) None)
  <> to_string (from_string Examples.spaced_text None).
Proof. vm_compute. discriminate. Qed.

End Normalize.

(** ** Enumerating and loading *)
Module Enumerate.
Import PyStr Spec OS Store PyStrFacts.

(** *** The insertion sort *)
Section insertion_sort.
Context {A : Type} (key : A -> string).

Let le (x y : A) : Prop := String.le (key x) (key y).

Lemma insert_sorted_perm x l : insert_sorted key x l ≡ₚ x :: l.
Proof.
  induction l as [|y l IH]; [reflexivity|]. simpl.
  destruct (String.leb (key x) (key y)); [reflexivity|].
  rewrite IH. apply Permutation_swap.
Qed.

Lemma sorted_perm l : sorted key l ≡ₚ l.
Proof.
  induction l as [|x l IH]; [reflexivity|]. simpl.
  now rewrite insert_sorted_perm, IH.
Qed.

Lemma leb_false_le x y : String.leb (key x) (key y) = false -> le y x.
Proof.
  intros H. unfold le, String.le.
  destruct (String.leb_total (key x) (key y)) as [H'|H']; [congruence|].
  now rewrite H'.
Qed.

Lemma insert_sorted_Sorted x l : Sorted le l -> Sorted le (insert_sorted key x l).
Proof.
  induction 1 as [|y l Hl IH Hy]; simpl.
  - repeat constructor.
  - destruct (String.leb (key x) (key y)) eqn:E.
    + constructor; [now constructor|]. constructor. unfold le, String.le. now rewrite E.
    + constructor; [exact IH|].
      destruct Hy as [|z l Hz]; simpl.
      * constructor. now apply leb_false_le.
      * destruct (String.leb (key x) (key z)); constructor;
          [now apply leb_false_le|exact Hz].
Qed.

Lemma sorted_Sorted l : Sorted le (sorted key l).
Proof.
  induction l as [|x l IH]; [constructor|]. simpl. now apply insert_sorted_Sorted.
Qed.

Lemma leb_refl (k : string) : String.leb k k = true.
Proof.
  destruct (String.leb_total k k); assumption.
Qed.

Lemma insert_sorted_stable (k : string) x l :
  List.filter (fun y => String.eqb (key y) k) (insert_sorted key x l)
  = List.filter (fun y => String.eqb (key y) k) (x :: l).
Proof.
  induction l as [|y l IH]; [reflexivity|]. cbn [insert_sorted].
  destruct (String.leb (key x) (key y)) eqn:E; [reflexivity|].
  cbn [List.filter] in *. rewrite IH.
  destruct (String.eqb_spec (key x) k) as [Hx|Hx], (String.eqb_spec (key y) k) as [Hy|Hy];
    try reflexivity.
  rewrite Hx, Hy, leb_refl in E. discriminate.
Qed.

(** The sort is stable: the elements of one key come out in the order in
    which they went in. *)
Lemma sorted_stable (k : string) l :
  List.filter (fun y => String.eqb (key y) k) (sorted key l)
  = List.filter (fun y => String.eqb (key y) k) l.
Proof.
  induction l as [|x l IH]; [reflexivity|]. cbn [sorted].
  rewrite insert_sorted_stable. cbn [List.filter]. now rewrite IH.
Qed.

(** Two sorted arrangements of the same elements show the same keys in
    the same places. *)
Lemma Sorted_keys_unique l1 l2 :
  Sorted le l1 -> Sorted le l2 -> l1 ≡ₚ l2 -> key <$> l1 = key <$> l2.
Proof.
  intros H1 H2 HP.
  assert (forall l, Sorted le l -> Sorted String.le (key <$> l)) as Hmap.
  { induction 1 as [|y l Hl IH Hy]; [constructor|].
    simpl. constructor; [exact IH|]. destruct Hy; constructor. assumption. }
  apply (Sorted_unique String.le); [now apply Hmap..|].
  now apply fmap_Permutation.
Qed.

(** When no two elements have the same key, the arrangement itself is
    the same. *)
Lemma keys_determine l1 l2 :
  NoDup (key <$> l1) -> l1 ≡ₚ l2 -> key <$> l1 = key <$> l2 -> l1 = l2.
Proof.
  revert l2. induction l1 as [|x l1 IH]; intros [|y l2] Hnd HP Hk; try discriminate.
  - reflexivity.
  - simpl in *. injection Hk as Hxy Hk. apply NoDup_cons in Hnd as [Hx Hnd].
    assert (x = y) as ->.
    { assert (x ∈ y :: l2) as [->|Hin]%elem_of_cons by (rewrite <- HP; now left);
        [reflexivity|].
      exfalso. apply Hx. rewrite Hk. now apply list_elem_of_fmap_2. }
    f_equal. apply IH; [assumption| |assumption].
    now apply (Permutation_cons_inv HP).
Qed.

End insertion_sort.

(** *** [get_all_desktop_files] *)

Lemma get_all_desktop_files_eq fs :
  get_all_desktop_files fs = (Ok (sorted sort_key (flagged_files fs)), fs).
Proof.
  unfold get_all_desktop_files, flagged_files, get_user_applications_dir,
    get_system_applications_dir, path_home, exists_, glob, path_exists, desktop_files_in,
    user_dir, system_dir.
  unfold mbind, IO_bind, mret, IO_ret. cbn beta iota.
  destruct (bool_decide _ || bool_decide _); destruct (bool_decide _ || bool_decide _);
    cbn [List.map]; rewrite ?List.app_nil_r; reflexivity.
Qed.

Lemma filter_Permutation {A} (f : A -> bool) (l l' : list A) :
  l ≡ₚ l' -> List.filter f l ≡ₚ List.filter f l'.
Proof.
  induction 1 as [|x l l' _ IH|x y l|l l' l'' _ IH1 _ IH2]; simpl.
  - reflexivity.
  - destruct (f x); [now constructor|assumption].
  - destruct (f x), (f y); try reflexivity. apply Permutation_swap.
  - now rewrite IH1.
Qed.

Lemma lookup_file_is_Some p fs : is_Some (lookup_file p fs) <-> p ∈ (files fs).*1.
Proof.
  unfold lookup_file. induction (files fs) as [|[q d] l IH]; simpl.
  - split; [intros [? [=]]|intros []%elem_of_nil].
  - rewrite elem_of_cons. destruct (bool_decide_reflect (q = p)) as [->|Hne]; simpl.
    + split; [now left|eauto].
    + rewrite IH. split; [now right|]. intros [?|?]; [congruence|assumption].
Qed.

Lemma path_exists_same fs fs' p :
  same_up_to_order fs fs' -> path_exists p fs = path_exists p fs'.
Proof.
  intros (_ & Hd & Hf). unfold path_exists. f_equal.
  - apply bool_decide_ext. now rewrite Hd.
  - apply bool_decide_ext. rewrite !lookup_file_is_Some. now rewrite Hf.
Qed.

Lemma desktop_files_in_same fs fs' d :
  same_up_to_order fs fs' -> desktop_files_in d fs ≡ₚ desktop_files_in d fs'.
Proof.
  intros (_ & _ & Hf). unfold desktop_files_in. apply filter_Permutation.
  change (List.map fst ?l) with (fst <$> l). now rewrite Hf.
Qed.

Lemma flagged_files_same fs fs' :
  same_up_to_order fs fs' -> flagged_files fs ≡ₚ flagged_files fs'.
Proof.
  intros H. unfold flagged_files, user_dir.
  destruct H as (Hh & Hd & Hf). rewrite <- Hh.
  pose proof (conj Hh (conj Hd Hf)) as H.
  rewrite <- !(path_exists_same fs fs' _ H).
  apply Permutation_app.
  - destruct (path_exists _ fs); [|reflexivity].
    apply Permutation_map. now apply desktop_files_in_same.
  - destruct (path_exists _ fs); [|reflexivity].
    apply Permutation_map. now apply desktop_files_in_same.
Qed.

(** C7. [get_all_desktop_files] never raises and leaves the file system
    as it is; its result holds exactly the descriptor files of the user
    directory, flagged, and those of the system directory, not flagged, a
    directory that does not exist giving none; it is sorted by file name
    without regard to case.  A file system that enumerates the same
    entries in another order gives the same files with the same names in
    the same places, and the very same list when no two names are equal
    without regard to case. *)
Theorem enumerate_sorted_union (fs : FS) :
  exists l, get_all_desktop_files fs = (Ok l, fs)
    /\ l ≡ₚ flagged_files fs
    /\ Sorted by_name l
    /\ forall fs', same_up_to_order fs fs' ->
         exists l', get_all_desktop_files fs' = (Ok l', fs')
           /\ l' ≡ₚ l
           /\ caseless_name <$> l' = caseless_name <$> l
           /\ (NoDup (caseless_name <$> l) -> l' = l).
Proof.
  exists (sorted sort_key (flagged_files fs)).
  split; [apply get_all_desktop_files_eq|].
  split; [apply sorted_perm|].
  split; [exact (sorted_Sorted sort_key (flagged_files fs))|].
  intros fs' Hsame. exists (sorted sort_key (flagged_files fs')).
  split; [apply get_all_desktop_files_eq|].
  assert (sorted sort_key (flagged_files fs') ≡ₚ sorted sort_key (flagged_files fs)) as HP.
  { rewrite !sorted_perm. symmetry. now apply flagged_files_same. }
  assert (caseless_name <$> sorted sort_key (flagged_files fs')
          = caseless_name <$> sorted sort_key (flagged_files fs)) as HK.
  { apply (Sorted_keys_unique sort_key);
      [exact (sorted_Sorted sort_key _)..|exact HP]. }
  split; [exact HP|]. split; [exact HK|].
  intros Hnd. apply (keys_determine caseless_name); [now rewrite HK|exact HP|exact HK].
Qed.

Lemma enumerate_sorted_union_witness :
  exists l l',
    get_all_desktop_files Examples.mixed_case_fs = (Ok l, Examples.mixed_case_fs)
    /\ get_all_desktop_files Examples.mixed_case_reordered_fs
       = (Ok l', Examples.mixed_case_reordered_fs)
    /\ (fun x => (Path.name (fst x), snd x)) <$> l
       = [("a.desktop", true); ("B.desktop", true); ("C.desktop", false)]
    /\ Sorted by_name l
    /\ l' = l.
Proof.
  destruct (enumerate_sorted_union Examples.mixed_case_fs) as (l & Hl & _ & Hs & Hord).
  destruct (Hord Examples.mixed_case_reordered_fs) as (l' & Hl' & _ & Hk & Heq).
  { split; [reflexivity|]. split; [reflexivity|].
    unfold Examples.mixed_case_fs, Examples.mixed_case_reordered_fs. cbn [files].
    etransitivity; [apply perm_skip, Permutation_swap|apply Permutation_swap]. }
  exists l, l'.
  assert (fst (get_all_desktop_files Examples.mixed_case_fs) = Ok l) as E by now rewrite Hl.
  vm_compute in E. injection E as <-.
  repeat split; try assumption.
  apply Heq. apply (bool_decide_unpack _). vm_compute. exact I.
Defined.

(** The two directories of the sample, whatever the order of their
    entries, are enumerated as [a.desktop], [b.desktop], [c.desktop], the
    first two flagged. *)
Example enumerate_sample :
  match get_all_desktop_files Examples.sample_fs,
        get_all_desktop_files Examples.reordered_fs with
  | (Ok l, _), (Ok l', _) =>
      (fun x => (Path.name (fst x), snd x)) <$> l
        = [("a.desktop", true); ("b.desktop", true); ("c.desktop", false)]
      /\ l' = l
  | _, _ => False
  end.
Proof. vm_compute. split; reflexivity. Qed.

(** Names that differ in case are enumerated as [a.desktop], [B.desktop],
    [C.desktop]: an order that the names as they are written do not have,
    a capital letter standing before every small one. *)
Example enumerate_mixed_case :
  match get_all_desktop_files Examples.mixed_case_fs with
  | (Ok l, _) =>
      (fun x => (Path.name (fst x), snd x)) <$> l
        = [("a.desktop", true); ("B.desktop", true); ("C.desktop", false)]
      /\ ~ Sorted by_exact_name l
  | _ => False
  end.
Proof.
  vm_compute. split; [reflexivity|].
  intros H. inversion H as [|x l Hl Hhd]; subst. inversion Hhd as [|y l' Hle]; subst.
  exact Hle.
Qed.

(** *** [load_all_entries] *)

Lemma load_loop_eq paths acc fs :
  load_loop paths acc fs = (Ok (acc ++ omap (loaded fs) paths), fs).
Proof.
  revert acc. induction paths as [|[p b] paths IH]; intros acc.
  - simpl. now rewrite List.app_nil_r.
  - simpl load_loop. simpl omap. unfold loaded at 1. simpl fst.
    repeat (unfold mbind, IO_bind, try_except, from_file, read_text, mret, IO_ret; cbv beta).
    destruct (lookup_file p fs) as [[c|e]|]; cbv beta iota; rewrite IH.
    + now rewrite <- List.app_assoc.
    + reflexivity.
    + reflexivity.
Qed.

(** C8. [load_all_entries] never raises and leaves the file system as it
    is; its result holds, in the order of the enumeration, the entry read
    from every enumerated file whose text can be read, and nothing for a
    file that cannot be read. *)
Theorem load_all_skips_unreadable (fs : FS) :
  exists l, get_all_desktop_files fs = (Ok l, fs)
    /\ load_all_entries fs = (Ok (omap (loaded fs) l), fs).
Proof.
  exists (sorted sort_key (flagged_files fs)).
  split; [apply get_all_desktop_files_eq|].
  unfold load_all_entries. unfold mbind, IO_bind.
  rewrite get_all_desktop_files_eq. apply load_loop_eq.
Qed.

(** Of the three descriptor files of the sample, one cannot be read: two
    entries are loaded, in the order of the enumeration. *)
Example load_all_sample :
  match load_all_entries Examples.sample_fs with
  | (Ok es, fs') =>
      DesktopEntry.file_path <$> es
        = [Some "/home/u/.local/share/applications/b.desktop";
           Some "/usr/share/applications/c.desktop"]
      /\ fs' = Examples.sample_fs
  | _ => False
  end.
Proof. vm_compute. split; reflexivity. Qed.

End Enumerate.

(** ** Saving and deleting *)
Module SaveDelete.
Import PyStr Spec OS Store PyStrFacts.

(** *** Paths *)

Lemma user_dir_parts fs :
  user_dir fs
  = Path.mk (Path.root (home fs)) (Path.parts (home fs) ++ [".local"; "share"; "applications"]).
Proof.
  unfold user_dir, Path.joinpath. cbn [Path.root Path.parts].
  change (truthy (Path.root (Path.of_string ".local"))) with false.
  change (truthy (Path.root (Path.of_string "share"))) with false.
  change (truthy (Path.root (Path.of_string "applications"))) with false.
  cbv iota. cbn [Path.root Path.parts].
  change (Path.parts (Path.of_string ".local")) with [".local"].
  change (Path.parts (Path.of_string "share")) with ["share"].
  change (Path.parts (Path.of_string "applications")) with ["applications"].
  now rewrite <- !List.app_assoc.
Qed.

Lemma root_of_relative s : startswith "/" s = false -> Path.root_of s = "".
Proof.
  intros H. unfold Path.root_of, startswith in *. destruct s as [|c s]; [reflexivity|].
  cbn [String.prefix] in *.
  destruct (ascii_dec "/" c); [destruct s; discriminate|reflexivity].
Qed.

Lemma joinpath_relative d s :
  startswith "/" s = false ->
  d // s = Path.mk (Path.root d) (Path.parts d ++ Path.parts (Path.of_string s)).
Proof.
  intros H. unfold Path.joinpath. cbn [Path.root Path.of_string].
  now rewrite root_of_relative.
Qed.


Lemma is_part_desktop f : Path.is_part (f +:+ ".desktop") = true.
Proof.
  unfold Path.is_part. apply andb_true_iff. split.
  - destruct f; reflexivity.
  - apply negb_true_iff, String.eqb_neq. intros H.
    apply (f_equal String.length) in H. rewrite slength_app in H. simpl in H. lia.
Qed.


Lemma has_char_all_chars c s :
  has_char c s = false -> all_chars (fun d => negb (Ascii.eqb c d)) s = true.
Proof.
  induction s as [|d s IH]; [reflexivity|]. simpl.
  intros [H1 H2]%orb_false_iff. now rewrite H1, IH.
Qed.

(** A file name without a slash is one component. *)
Lemma parts_single s :
  has_char "/" s = false -> Path.is_part s = true -> Path.parts (Path.of_string s) = [s].
Proof.
  intros H Hp. unfold Path.of_string, split_on. cbn [Path.parts].
  rewrite fields_list_whole by now apply has_char_all_chars.
  simpl. now rewrite Hp.
Qed.

Lemma to_string_snoc r ps f :
  ps <> [] ->
  Path.to_string (Path.mk r (ps ++ [f])) = Path.to_string (Path.mk r ps) +:+ "/" +:+ f.
Proof.
  intros H. pose proof (join_snoc "/" ps f H) as Hj.
  unfold Path.to_string. cbn [Path.root Path.parts].
  destruct ps as [|x ps]; [congruence|].
  destruct r as [|c r].
  - change (("" +:+ join "/" ((x :: ps) ++ [f])) = ("" +:+ join "/" (x :: ps)) +:+ "/" +:+ f).
    now rewrite Hj, !sapp_nil_l.
  - change ((String c r +:+ join "/" ((x :: ps) ++ [f]))
            = (String c r +:+ join "/" (x :: ps)) +:+ "/" +:+ f).
    now rewrite Hj, !sapp_assoc.
Qed.

(** *** The file name made up from the name of the entry *)

Lemma filename_char c :
  Ascii.eqb "/" (if Ascii.eqb (lower_char c) " " then "-"%char else lower_char c)
  = Ascii.eqb "/" c.
Proof. destruct c as [[] [] [] [] [] [] [] []]; reflexivity. Qed.

Lemma has_char_replace_lower s :
  has_char "/" (replace " " "-" (lower s)) = has_char "/" s.
Proof.
  induction s as [|c s IH]; [reflexivity|].
  cbn [lower replace has_char]. now rewrite filename_char, IH.
Qed.

Lemma filename_of_slash e :
  has_char "/" (filename_of e) = has_char "/" (DesktopEntry.name e).
Proof.
  unfold filename_of. rewrite has_char_app, has_char_replace_lower.
  apply orb_false_r.
Qed.

Lemma prefix_nil s : String.prefix "" s = true.
Proof. now destruct s. Qed.


(** *** [save] *)

Lemma lookup_replace_file p c l h ds ro :
  lookup_file p (mkFS h ds ro (replace_file p c l)) = Some c.
Proof.
  unfold lookup_file. cbn [files]. induction l as [|[q d] l IH]; simpl.
  - now rewrite bool_decide_true.
  - destruct (bool_decide_reflect (q = p)) as [->|Hne]; simpl.
    + now rewrite bool_decide_true.
    + now rewrite bool_decide_false.
Qed.

Lemma lies_under_app r ps qs :
  qs <> [] -> lies_under (Path.mk r ps) (Path.mk r (ps ++ qs)) = true.
Proof.
  intros H. unfold lies_under. cbn [Path.root Path.parts].
  rewrite String.eqb_refl, take_app_length, bool_decide_true by reflexivity.
  apply Nat.ltb_lt. rewrite length_app. destruct qs; [congruence|]. simpl. lia.
Qed.





(** *** Which paths contain [.local] *)

Lemma prefix_app sub b : String.prefix sub (sub +:+ b) = true.
Proof.
  induction sub as [|c sub IH]; [apply prefix_nil|].
  rewrite sapp_cons. cbn [String.prefix]. destruct (ascii_dec c c); [exact IH|congruence].
Qed.

Lemma contains_app_intro sub a b : contains sub (a +:+ sub +:+ b) = true.
Proof.
  induction a as [|c a IH].
  - rewrite sapp_nil_l. destruct (sub +:+ b) eqn:E; cbn [contains];
      rewrite <- E, prefix_app; reflexivity.
  - rewrite sapp_cons. cbn [contains]. rewrite IH. apply orb_true_r.
Qed.

Lemma join_middle sep l1 x l2 :
  exists a b, join sep (l1 ++ x :: l2) = a +:+ x +:+ b.
Proof.
  destruct l1 as [|y l1], l2 as [|z l2].
  - exists "", "". now rewrite sapp_nil_r.
  - exists "", (sep +:+ join sep (z :: l2)). reflexivity.
  - exists (join sep (y :: l1) +:+ sep), "".
    rewrite join_snoc by discriminate. now rewrite sapp_nil_r, !sapp_assoc.
  - exists (join sep (y :: l1) +:+ sep), (sep +:+ join sep (z :: l2)).
    rewrite join_app by discriminate. rewrite join_cons2. now rewrite !sapp_assoc.
Qed.

(** Every path under the user applications directory contains [.local]:
    the paths without it are all outside. *)
Lemma under_user_dir_contains_local fs p :
  lies_under (user_dir fs) p = true -> contains ".local" (Path.to_string p) = true.
Proof.
  unfold lies_under. rewrite user_dir_parts. cbn [Path.root Path.parts].
  intros [[_ Ht]%andb_true_iff _]%andb_true_iff.
  apply bool_decide_eq_true in Ht.
  destruct p as [r ps]. cbn [Path.parts] in Ht.
  rewrite <- (take_drop (length (Path.parts (home fs) ++ [".local"; "share"; "applications"])) ps).
  rewrite Ht, <- !List.app_assoc.
  destruct (join_middle "/" (Path.parts (home fs)) ".local"
              (["share"; "applications"]
               ++ drop (length (Path.parts (home fs) ++ [".local"; "share"; "applications"])) ps))
    as (a & b & Hj).
  unfold Path.to_string. cbn [Path.root Path.parts].
  cbn [app] in Hj |- *.
  destruct r as [|c r].
  - destruct (Path.parts (home fs)) as [|h hs]; cbn [app] in Hj |- *;
      rewrite Hj; apply (contains_app_intro ".local" a b).
  - rewrite Hj, <- sapp_assoc. apply contains_app_intro.
Qed.

(** *** [action_delete] *)

(** C6, as the program has it. For a selected entry whose path, as text,
    does not contain [.local] (no path under the user applications
    directory is such a path), the delete action reports that the file is
    not found when nothing exists at the path, and that system entries
    cannot be deleted otherwise; either way the file system and the
    application are left as they are. *)
Theorem delete_rejects_without_local
  (app : App.t) (fs : FS) (e : DesktopEntry.t) (fp : string) :
  App.current_entry app = Some e ->
  has_file_path e = Some fp ->
  contains ".local" (Path.to_string (Path.of_string fp)) = false ->
  lies_under (user_dir fs) (Path.of_string fp) = false
  /\ App.action_delete app fs
     = (Ok (app, if path_exists (Path.of_string fp) fs
                 then App.CannotDeleteSystemEntries else App.FileNotFound), fs).
Proof.
  intros Hc Hfp Hl. split.
  { apply not_true_is_false. intros H%under_user_dir_contains_local. congruence. }
  unfold App.action_delete. rewrite Hc, Hfp.
  unfold exists_, path_exists.
  repeat (unfold mbind, IO_bind, mret, IO_ret; cbv beta iota).
  destruct (bool_decide _ || bool_decide _); cbn [negb]; [|reflexivity].
  now rewrite Hl.
Qed.

Lemma delete_rejects_without_local_witness :
  App.action_delete (Examples.selected "/usr/share/applications/c.desktop") Examples.sample_fs
  = (Ok (Examples.selected "/usr/share/applications/c.desktop",
         App.CannotDeleteSystemEntries), Examples.sample_fs).
Proof.
  refine (eq_trans
            (proj2 (delete_rejects_without_local
               (Examples.selected "/usr/share/applications/c.desktop") Examples.sample_fs
               (DesktopEntry.set_file_path (Examples.plain_entry "Tool")
                  (Some "/usr/share/applications/c.desktop"))
               "/usr/share/applications/c.desktop" _ _ _)) _);
    reflexivity.
Defined.

(** A path outside the user applications directory at which nothing exists
    is answered with the notice that the file is not found. *)
Lemma delete_missing_file_not_found :
  lies_under (user_dir Examples.sample_fs)
             (Path.of_string "/usr/share/applications/gone.desktop") = false
  /\ App.action_delete (Examples.selected "/usr/share/applications/gone.desktop")
                       Examples.sample_fs
     = (Ok (Examples.selected "/usr/share/applications/gone.desktop", App.FileNotFound),
        Examples.sample_fs)
  /\ App.FileNotFound <> App.CannotDeleteSystemEntries.
Proof. split; [|split]; [vm_compute; reflexivity..|discriminate]. Qed.

(** A file of the system directory whose name contains [.local] passes the
    test of the action and is removed when the directory may be changed. *)
Lemma delete_local_named_system_file :
  lies_under (user_dir Examples.open_fs)
             (Path.of_string "/usr/share/applications/org.local.desktop") = false
  /\ exists app' fs',
       App.action_delete (Examples.selected "/usr/share/applications/org.local.desktop")
                         Examples.open_fs
       = (Ok (app', App.Deleted "org.local.desktop"), fs')
       /\ lookup_file (Path.of_string "/usr/share/applications/org.local.desktop")
                      Examples.open_fs = Some (Text "")
       /\ lookup_file (Path.of_string "/usr/share/applications/org.local.desktop") fs' = None.
Proof.
  split; [vm_compute; reflexivity|].
  eexists _, _. split; [vm_compute; reflexivity|]. split; vm_compute; reflexivity.
Qed.

(** A file of the system directory whose name does not contain [.local]
    has a path without it. *)
Lemma system_file_without_local name :
  has_char "/" name = false -> Path.is_part name = true ->
  Path.to_string (system_dir // name) = "/usr/share/applications/" +:+ name
  /\ contains ".local" (Path.to_string (system_dir // name)) = contains ".local" name.
Proof.
  intros Hs Hp.
  assert (Path.to_string (system_dir // name) = "/usr/share/applications/" +:+ name) as E.
  { rewrite joinpath_relative.
    - rewrite parts_single by assumption.
      change (Path.parts system_dir) with ["usr"; "share"; "applications"].
      change (Path.root system_dir) with "/".
      rewrite to_string_snoc by discriminate. reflexivity.
    - unfold startswith. destruct name as [|c name]; [reflexivity|].
      cbn [String.prefix]. cbn [has_char] in Hs. apply orb_false_iff in Hs as [Hs _].
      destruct (ascii_dec "/" c) as [<-|]; [discriminate|reflexivity]. }
  split; [exact E|]. rewrite E.
  change ("/usr/share/applications/" +:+ name)
    with (String "/" (String "u" (String "s" (String "r" (String "/" (String "s"
         (String "h" (String "a" (String "r" (String "e" (String "/" (String "a"
         (String "p" (String "p" (String "l" (String "i" (String "c" (String "a"
         (String "t" (String "i" (String "o" (String "n" (String "s" (String "/"
          name)))))))))))))))))))))))).
  repeat (cbn [contains String.prefix];
          match goal with
          | |- context [ascii_dec ?a ?b] =>
              destruct (ascii_dec a b) as [?|_]; [discriminate|]
          end; cbn [orb]).
  reflexivity.
Qed.

End SaveDelete.

(** ** More on reading and writing *)
Module CodecMore.
Import PyStr Spec SpecMore DesktopEntry PyStrFacts.

(** X1. The dictionary the loop of [from_string] builds holds, for every
    key, the value of the last assignment to it inside the section, and
    nothing for a key that is assigned nowhere. *)
Theorem scan_keeps_last_assignment (content key : string) :
  scan content !! key = last_assigned key (assignments_of content)
  /\ (scan content !! key = None <-> omitted key content).
Proof.
  split; [apply Parse.scan_lookup|].
  rewrite Parse.scan_lookup. apply Parse.last_assigned_None.
Qed.

Lemma scan_keeps_last_assignment_witness :
  DesktopEntry.scan Examples.overridden_text !! "Exec"
  = last_assigned "Exec" (assignments_of Examples.overridden_text)
  /\ last_assigned "Exec" (assignments_of Examples.overridden_text) <> None.
Proof.
  split; [exact (proj1 (scan_keeps_last_assignment Examples.overridden_text "Exec"))|].
  vm_compute. discriminate.
Defined.

Lemma assignments_no_header ls :
  Forall (fun l => strip l <> "[Desktop Entry]") ls -> assignments false ls = [].
Proof.
  induction 1 as [|raw ls Hraw _ IH]; [reflexivity|]. cbn [assignments].
  destruct (negb (truthy (strip raw)) || startswith "#" (strip raw)); [exact IH|].
  destruct (startswith "[" (strip raw) && endswith "]" (strip raw)).
  - apply String.eqb_neq in Hraw. now rewrite Hraw.
  - exact IH.
Qed.

(** X2. A text none of whose lines is the header [[Desktop Entry]] is read
    as the entry of defaults, whatever else it holds. *)
Theorem headerless_text_gives_defaults (content : string) (fp : option string) :
  Forall (fun l => strip l <> "[Desktop Entry]") (splitlines content) ->
  from_string content fp = default_entry fp.
Proof.
  intros H.
  assert (scan content = ∅) as E.
  { apply map_eq. intros k. rewrite Parse.scan_lookup. unfold last_assigned, assignments_of.
    now rewrite assignments_no_header. }
  unfold from_string. rewrite E. reflexivity.
Qed.

Lemma headerless_text_gives_defaults_witness :
  from_string ExamplesMore.headerless_text None = default_entry None.
Proof.
  apply headerless_text_gives_defaults.
  apply (bool_decide_unpack _). vm_compute. exact I.
Defined.

(** X3. Every textual field of an entry read from a text is free of line
    boundaries and of whitespace at its ends. *)
Theorem parse_gives_clean_fields (content : string) (fp : option string) :
  clean_fields (from_string content fp) = true.
Proof.
  apply Normalize.parsed_fields_clean.
Qed.

(** X4. A stable entry is read back from its text as it was, with the path
    of the file it is read from. *)
Theorem parse_inverts_serialize (e : DesktopEntry.t) (fp : option string) :
  stable e = true -> from_string (to_string e) fp = set_file_path e fp.
Proof.
  apply Roundtrip.from_string_to_string.
Qed.

Lemma parse_inverts_serialize_witness :
  from_string (to_string Examples.wrapped_entry) None = Examples.wrapped_entry.
Proof.
  apply (parse_inverts_serialize Examples.wrapped_entry None). reflexivity.
Defined.

(** X5. Two stable entries with the same text have the same fields: the
    text loses nothing but the path of the file. *)
Theorem serialize_injective (e1 e2 : DesktopEntry.t) :
  stable e1 = true -> stable e2 = true -> to_string e1 = to_string e2 ->
  set_file_path e1 None = set_file_path e2 None.
Proof.
  intros H1 H2 E.
  rewrite <- (Roundtrip.from_string_to_string e1 None H1).
  rewrite <- (Roundtrip.from_string_to_string e2 None H2).
  now rewrite E.
Qed.

Lemma serialize_injective_witness :
  set_file_path Examples.wrapped_entry None
  = set_file_path (set_file_path Examples.wrapped_entry (Some "/tmp/a.desktop")) None.
Proof.
  apply serialize_injective; reflexivity.
Defined.

(** X6. The text of an entry read from any text is a fixed point of
    reading and writing, as soon as the command and the variables of the
    entry wrap and unwrap to themselves. *)
Theorem serialize_fixed_after_parse (content : string) (fp fp' : option string) :
  exec_stable (from_string content fp) = true ->
  to_string (from_string (to_string (from_string content fp)) fp')
  = to_string (from_string content fp).
Proof.
  apply Normalize.normalized_roundtrip.
Qed.

Lemma serialize_fixed_after_parse_witness :
  to_string (from_string (to_string (from_string Examples.wrapped_text None)) None)
  = to_string (from_string Examples.wrapped_text None).
Proof.
  apply serialize_fixed_after_parse. reflexivity.
Defined.

(** X7. The command is stored as it is assigned, also when it begins with
    [env], when the text assigns no [X-Env-Vars]; and when it does not
    begin with [env] followed by a space, whatever the variables. *)
Theorem exec_kept_as_assigned (content : string) (fp : option string) (x : string) :
  last_assigned "Exec" (assignments_of content) = Some x ->
  omitted "X-Env-Vars" content \/ startswith "env " x = false ->
  exec (from_string content fp) = x.
Proof.
  intros Hx H. unfold from_string. cbn [exec].
  rewrite (Parse.get_assigned _ _ _ _ Hx). unfold unwrap_exec.
  destruct H as [H|H].
  - now rewrite (Parse.get_omitted _ _ _ H).
  - now rewrite H, andb_false_r.
Qed.

Lemma exec_kept_as_assigned_witness :
  exec (from_string ExamplesMore.env_command_text None) = "env A=1 tool".
Proof.
  apply exec_kept_as_assigned; [reflexivity|]. left.
  apply Parse.not_in_by_computation. vm_compute. reflexivity.
Defined.

Lemma no_linebreak_fields_each e :
  no_linebreak_fields e = true ->
  no_linebreak (name e) = true /\ no_linebreak (exec e) = true
  /\ no_linebreak (entry_type e) = true /\ no_linebreak (comment e) = true
  /\ no_linebreak (icon e) = true /\ no_linebreak (path e) = true
  /\ no_linebreak (categories e) = true /\ no_linebreak (keywords e) = true
  /\ no_linebreak (url e) = true /\ no_linebreak (mime_type e) = true
  /\ no_linebreak (env_vars e) = true /\ no_linebreak (startup_wm_class e) = true.
Proof.
  unfold no_linebreak_fields. intros H.
  do 11 (apply andb_true_iff in H as [H ?]). repeat split; assumption.
Qed.

Lemma layout_lines_whole e :
  no_linebreak_fields e = true -> Forall (fun l => no_linebreak l = true) (layout e).
Proof.
  intros (Hn & Hx & Ht & Hc & Hi & Hp & Hcat & Hk & Hu & Hm & Hv & Hw)%no_linebreak_fields_each.
  assert (forall k v, no_linebreak k = true -> no_linebreak v = true ->
            no_linebreak (k +:+ v) = true) as Hline.
  { intros k v Hk' Hv'. unfold no_linebreak in *. now rewrite all_chars_app, Hk', Hv'. }
  assert (forall k v, no_linebreak k = true -> no_linebreak v = true ->
            Forall (fun l => no_linebreak l = true) (opt_line k v)) as Hopt.
  { intros k v Hk' Hv'. unfold opt_line. destruct (truthy v); repeat constructor.
    now apply Hline. }
  unfold layout. repeat apply Forall_app_2; try (apply Hopt; [reflexivity|assumption]).
  - repeat constructor; try (apply Hline; [reflexivity|assumption]).
  - destruct (truthy (exec e)); repeat constructor.
    apply Hline; [reflexivity|]. now apply Roundtrip.exec_value_no_linebreak.
  - repeat constructor. now destruct (terminal e).
  - repeat constructor. now destruct (hidden e).
Qed.

(** X8. When no field holds a line boundary, the lines of the text are the
    lines [to_string] built, each field on the line of its own key. *)
Theorem text_lines_are_built_lines (e : DesktopEntry.t) :
  no_linebreak_fields e = true -> splitlines (to_string e) = to_lines e.
Proof.
  intros H. rewrite Serialize.to_string_layout, Serialize.to_lines_layout.
  apply splitlines_join; [unfold layout; discriminate|now apply layout_lines_whole].
Qed.

Lemma text_lines_are_built_lines_witness :
  splitlines (to_string Examples.padded_entry) = to_lines Examples.padded_entry.
Proof.
  apply text_lines_are_built_lines. reflexivity.
Defined.

End CodecMore.

(** ** More on the store *)
Module StoreMore.
Import PyStr Spec SpecMore OS Store PyStrFacts.

(** *** What [save] does, case by case *)

Lemma save_run e path fs :
  save e path fs
  = if bool_decide (Path.parent (save_target e path fs) ∈ readonly fs)
    then (Raise PermissionError, after_mkdir (Path.parent (save_target e path fs)) fs)
    else (Ok (save_target e path fs,
              DesktopEntry.set_file_path e (Some (Path.to_string (save_target e path fs)))),
          after_save e (save_target e path fs) fs).
Proof.
  unfold save, save_target, get_user_applications_dir, path_home, mkdir_parents, write_text,
    after_save, after_mkdir.
  destruct path as [p|]; [|destruct (has_file_path e) as [fp|]];
    repeat (unfold mbind, IO_bind, mret, IO_ret; cbv beta iota zeta);
    cbn [readonly home dirs files]; fold (user_dir fs);
    destruct (bool_decide _); reflexivity.
Qed.







(** *** The text of a path leads back to the path *)

Lemma fields_join_slash ps :
  Forall (fun c => has_char "/" c = false) ps -> ps <> [] ->
  fields_list (Ascii.eqb "/") (join "/" ps) = ps.
Proof.
  induction 1 as [|x ps Hx Hps IH]; [congruence|]. intros _.
  destruct ps as [|y ps].
  - rewrite join_one. now apply fields_list_whole, SaveDelete.has_char_all_chars.
  - rewrite join_cons2.
    change (x +:+ "/" +:+ join "/" (y :: ps)) with (x +:+ String "/"%char (join "/" (y :: ps))).
    rewrite fields_list_sep by reflexivity.
    rewrite IH by discriminate.
    now rewrite fields_list_whole by now apply SaveDelete.has_char_all_chars.
Qed.

Lemma components_no_slash ps :
  forallb component ps = true -> Forall (fun c => has_char "/" c = false) ps.
Proof.
  induction ps as [|x ps IH]; [constructor|]. cbn [forallb].
  intros [[_ Hx]%andb_true_iff Hps]%andb_true_iff. constructor; [|now apply IH].
  now apply negb_true_iff.
Qed.

Lemma filter_components ps :
  forallb component ps = true -> List.filter Path.is_part ps = ps.
Proof.
  induction ps as [|x ps IH]; [reflexivity|]. cbn [forallb List.filter].
  intros [[Hx _]%andb_true_iff Hps]%andb_true_iff. now rewrite Hx, IH.
Qed.

Lemma join_head sep c x l : exists J, join sep (String c x :: l) = String c J.
Proof.
  destruct l as [|y l]; [now exists x|].
  rewrite join_cons2, sapp_cons. eauto.
Qed.

Lemma fields_slash s :
  fields_list (Ascii.eqb "/") (String "/" s) = "" :: fields_list (Ascii.eqb "/") s.
Proof.
  now rewrite fields_list_cons.
Qed.

Lemma of_string_to_string p :
  normal_path p = true -> Path.of_string (Path.to_string p) = p.
Proof.
  destruct p as [r ps]. unfold normal_path. cbn [Path.root Path.parts].
  intros [Hr Hps]%andb_true_iff.
  assert (r = "" \/ r = "/" \/ r = "//") as Hroot.
  { apply orb_true_iff in Hr as [Hr|Hr]; [apply orb_true_iff in Hr as [Hr|Hr]|];
      apply String.eqb_eq in Hr; auto. }
  destruct ps as [|x ps].
  { destruct Hroot as [->|[->| ->]]; reflexivity. }
  pose proof (components_no_slash _ Hps) as Hns.
  pose proof (filter_components _ Hps) as Hfil.
  pose proof (fields_join_slash (x :: ps) Hns ltac:(discriminate)) as Hfields.
  assert (exists c J, join "/" (x :: ps) = String c J /\ Ascii.eqb "/" c = false)
    as (c & J & HJ & Hc).
  { cbn [forallb] in Hps. apply andb_true_iff in Hps as [Hx _].
    inversion Hns as [|? ? Hx' _]; subst.
    destruct x as [|c x]; [discriminate|].
    destruct (join_head "/" c x ps) as (J & HJ). exists c, J. split; [exact HJ|].
    cbn [has_char] in Hx'. now apply orb_false_iff in Hx' as [? _]. }
  assert (forall A (a b : A), (if ascii_dec "/" c then a else b) = b) as Hdec.
  { intros A a b. destruct (ascii_dec "/" c) as [<-|]; [|reflexivity].
    now rewrite Ascii.eqb_refl in Hc. }
  unfold Path.of_string, Path.to_string, split_on. cbn [Path.root Path.parts].
  destruct Hroot as [->|[->| ->]].
  - rewrite sapp_nil_l, Hfields, Hfil. f_equal.
    apply SaveDelete.root_of_relative. rewrite HJ. unfold startswith.
    cbn [String.prefix]. apply Hdec.
  - change ("/" +:+ join "/" (x :: ps)) with (String "/"%char (join "/" (x :: ps))).
    rewrite fields_slash, Hfields.
    change (List.filter Path.is_part ("" :: x :: ps)) with (List.filter Path.is_part (x :: ps)).
    rewrite Hfil. f_equal.
    rewrite HJ. unfold Path.root_of, startswith. cbn [String.prefix].
    destruct (ascii_dec "/" "/") as [_|[]]; [|reflexivity]. rewrite !Hdec.
    now destruct J.
  - change ("//" +:+ join "/" (x :: ps))
      with (String "/"%char (String "/"%char (join "/" (x :: ps)))).
    rewrite !fields_slash, Hfields.
    change (List.filter Path.is_part ("" :: "" :: x :: ps))
      with (List.filter Path.is_part (x :: ps)).
    rewrite Hfil. f_equal.
    rewrite HJ. unfold Path.root_of, startswith. cbn [String.prefix].
    destruct (ascii_dec "/" "/") as [_|[]]; [|reflexivity]. rewrite !Hdec.
    now destruct J.
Qed.

Lemma root_of_cases s : Path.root_of s = "" \/ Path.root_of s = "/" \/ Path.root_of s = "//".
Proof.
  unfold Path.root_of.
  destruct (startswith "///" s); [auto|].
  destruct (startswith "//" s); [auto|].
  destruct (startswith "/" s); auto.
Qed.

Lemma no_sep_no_slash c :
  all_chars (fun d => negb (Ascii.eqb "/" d)) c = true -> has_char "/" c = false.
Proof.
  induction c as [|d c IH]; [reflexivity|]. cbn [all_chars has_char].
  intros [Hd Hc]%andb_true_iff. apply negb_true_iff in Hd. now rewrite Hd, IH.
Qed.

(** [Path(s)] is normal for every text [s]. *)
Lemma of_string_normal s : normal_path (Path.of_string s) = true.
Proof.
  unfold normal_path, Path.of_string. cbn [Path.root Path.parts].
  apply andb_true_iff. split.
  - destruct (root_of_cases s) as [->|[->| ->]]; reflexivity.
  - unfold split_on.
    pose proof (fields_list_no_sep (Ascii.eqb "/") s) as H.
    induction H as [|f fs Hf _ IH]; [reflexivity|].
    cbn [List.filter]. destruct (Path.is_part f) eqn:E; [|exact IH].
    cbn [forallb]. rewrite IH, andb_true_r. unfold component.
    now rewrite E, no_sep_no_slash.
Qed.

Lemma joinpath_normal p s : normal_path p = true -> normal_path (p // s) = true.
Proof.
  intros Hp. unfold Path.joinpath.
  destruct (truthy (Path.root (Path.of_string s))); [apply of_string_normal|].
  pose proof (of_string_normal s) as Hs.
  unfold normal_path in *. cbn [Path.root Path.parts].
  apply andb_true_iff in Hp as [Hr Hps]. apply andb_true_iff in Hs as [_ Hss].
  now rewrite Hr, forallb_app, Hps, Hss.
Qed.

(** The target of [save] is a normal path when the path given and the home
    directory are. *)
Lemma save_target_normal e path fs :
  normal_path (home fs) = true ->
  (forall p, path = Some p -> normal_path p = true) ->
  normal_path (save_target e path fs) = true.
Proof.
  intros Hh Hp. unfold save_target.
  destruct path as [p|]; [now apply Hp|].
  destruct (has_file_path e); [apply of_string_normal|].
  unfold user_dir. now repeat apply joinpath_normal.
Qed.

Lemma to_string_truthy p : normal_path p = true -> truthy (Path.to_string p) = true.
Proof.
  destruct p as [r ps]. unfold normal_path, Path.to_string. cbn [Path.root Path.parts].
  intros [_ Hps]%andb_true_iff.
  destruct r as [|c r]; [|reflexivity].
  destruct ps as [|x ps]; [reflexivity|].
  cbn [forallb] in Hps. apply andb_true_iff in Hps as [[[Hx _]%andb_true_iff _]%andb_true_iff _].
  destruct x as [|c x]; [discriminate|].
  destruct (join_head "/" c x ps) as (J & ->). reflexivity.
Qed.

(** *** Saving again *)

Lemma replace_file_idem p c l : replace_file p c (replace_file p c l) = replace_file p c l.
Proof.
  induction l as [|[q d] l IH]; simpl.
  - now rewrite bool_decide_true.
  - destruct (bool_decide_reflect (q = p)) as [->|Hne]; simpl.
    + now rewrite bool_decide_true.
    + rewrite bool_decide_false by assumption. now rewrite IH.
Qed.

Lemma filter_none {A} (f : A -> bool) l :
  (forall x, x ∈ l -> f x = false) -> List.filter f l = [].
Proof.
  induction l as [|x l IH]; [reflexivity|]. intros H. cbn [List.filter].
  rewrite (H x) by now left. apply IH. intros y Hy. apply H. now right.
Qed.

Lemma filter_elem {A} (f : A -> bool) l x : x ∈ l -> f x = true -> x ∈ List.filter f l.
Proof.
  induction l as [|y l IH]; [now intros ?%elem_of_nil|].
  intros [->|Hin]%elem_of_cons Hf; cbn [List.filter].
  - rewrite Hf. now left.
  - destruct (f y); [right|]; now apply IH.
Qed.

Lemma after_mkdir_idem d fs : after_mkdir d (after_mkdir d fs) = after_mkdir d fs.
Proof.
  unfold after_mkdir. cbn [home dirs readonly files]. f_equal.
  set (made := List.filter (fun a => negb (bool_decide (a ∈ dirs fs))) (ancestors d)).
  rewrite filter_none; [apply List.app_nil_r|].
  intros a Ha. apply negb_false_iff, bool_decide_eq_true.
  apply elem_of_app. destruct (decide (a ∈ dirs fs)) as [Hin|Hout]; [now left|right].
  apply filter_elem; [exact Ha|]. now rewrite bool_decide_false.
Qed.

Lemma after_save_idem e p fs : after_save e p (after_save e p fs) = after_save e p fs.
Proof.
  transitivity
    (mkFS (home fs) (dirs (after_mkdir (Path.parent p) (after_mkdir (Path.parent p) fs)))
       (readonly fs)
       (replace_file p (Text (DesktopEntry.to_string e))
          (replace_file p (Text (DesktopEntry.to_string e)) (files fs))));
    [reflexivity|].
  rewrite replace_file_idem, after_mkdir_idem. reflexivity.
Qed.

Lemma set_file_path_twice e a b :
  DesktopEntry.set_file_path (DesktopEntry.set_file_path e a) b = DesktopEntry.set_file_path e b.
Proof.
  reflexivity.
Qed.

Lemma lookup_after_save e p fs :
  lookup_file p (after_save e p fs) = Some (Text (DesktopEntry.to_string e)).
Proof.
  apply SaveDelete.lookup_replace_file.
Qed.

Lemma save_ok_inv e path p e1 fs fs1 :
  save e path fs = (Ok (p, e1), fs1) ->
  p = save_target e path fs
  /\ e1 = DesktopEntry.set_file_path e (Some (Path.to_string p))
  /\ fs1 = after_save e p fs
  /\ Path.parent p ∉ readonly fs.
Proof.
  rewrite save_run.
  destruct (bool_decide_reflect (Path.parent (save_target e path fs) ∈ readonly fs))
    as [Hro|Hro]; [discriminate|].
  intros [= <- <- <-]. now repeat split.
Qed.

(** X11. Saving again what [save] returned, without a path, writes the same
    file with the same text: the file system and the entry are left as
    they are.  The home directory and the path given, if one is given, are
    taken to be paths as [Path] makes them. *)
Theorem save_again_changes_nothing
  (e e1 : DesktopEntry.t) (path : option Path.t) (p : Path.t) (fs fs1 : FS) :
  normal_path (home fs) = true ->
  (forall q, path = Some q -> normal_path q = true) ->
  save e path fs = (Ok (p, e1), fs1) ->
  save e1 None fs1 = (Ok (p, e1), fs1).
Proof.
  intros Hhome Hpath (Hp & -> & -> & Hro)%save_ok_inv.
  assert (normal_path p = true) as Hn by (rewrite Hp; now apply save_target_normal).
  rewrite save_run.
  assert (save_target (DesktopEntry.set_file_path e (Some (Path.to_string p))) None
            (after_save e p fs) = p) as ->.
  { unfold save_target, has_file_path. cbn [DesktopEntry.file_path DesktopEntry.set_file_path].
    rewrite to_string_truthy by assumption. now apply of_string_to_string. }
  change (readonly (after_save e p fs)) with (readonly fs).
  rewrite bool_decide_false by assumption.
  rewrite set_file_path_twice. f_equal.
  rewrite <- (after_save_idem e p fs) at 2.
  unfold after_save at 1 3. now rewrite Roundtrip.to_string_set_file_path.
Qed.

Lemma save_again_changes_nothing_witness :
  exists p e1 fs1,
    save (Examples.plain_entry "My App") None Examples.sample_fs = (Ok (p, e1), fs1)
    /\ save e1 None fs1 = (Ok (p, e1), fs1).
Proof.
  destruct (save (Examples.plain_entry "My App") None Examples.sample_fs)
    as [[[p e1]|x] fs1] eqn:E; [|vm_compute in E; discriminate].
  exists p, e1, fs1. split; [reflexivity|].
  apply (save_again_changes_nothing (Examples.plain_entry "My App") e1 None p
           Examples.sample_fs fs1); [reflexivity|discriminate|exact E].
Defined.

(** X12. What [save] has written is read back by [from_file] at the path
    returned as the entry returned, provided the entry is stable. *)
Theorem saved_entry_read_back
  (e e1 : DesktopEntry.t) (path : option Path.t) (p : Path.t) (fs fs1 : FS) :
  stable e = true ->
  save e path fs = (Ok (p, e1), fs1) ->
  from_file p fs1 = (Ok e1, fs1).
Proof.
  intros Hst (_ & -> & -> & _)%save_ok_inv.
  unfold from_file, read_text, mbind, IO_bind, mret, IO_ret.
  rewrite lookup_after_save. now rewrite Roundtrip.from_string_to_string.
Qed.

Lemma saved_entry_read_back_witness :
  exists p e1 fs1,
    save (Examples.plain_entry "My App") None Examples.sample_fs = (Ok (p, e1), fs1)
    /\ from_file p fs1 = (Ok e1, fs1).
Proof.
  destruct (save (Examples.plain_entry "My App") None Examples.sample_fs)
    as [[[p e1]|x] fs1] eqn:E; [|vm_compute in E; discriminate].
  exists p, e1, fs1. split; [reflexivity|].
  apply (saved_entry_read_back (Examples.plain_entry "My App") e1 None p Examples.sample_fs fs1);
    [reflexivity|exact E].
Defined.

Lemma new_target_parts e fs :
  has_char "/" (DesktopEntry.name e) = false ->
  user_dir fs // filename_of e
  = Path.mk (Path.root (user_dir fs)) (Path.parts (user_dir fs) ++ [filename_of e]).
Proof.
  intros Hs.
  assert (has_char "/" (filename_of e) = false) as Hf
    by now rewrite SaveDelete.filename_of_slash.
  rewrite SaveDelete.joinpath_relative.
  - rewrite SaveDelete.parts_single; [reflexivity|exact Hf|apply SaveDelete.is_part_desktop].
  - unfold startswith. destruct (filename_of e) as [|c s]; [reflexivity|].
    cbn [has_char] in Hf. apply orb_false_iff in Hf as [Hc _].
    cbn [String.prefix]. destruct (ascii_dec "/" c) as [<-|]; [discriminate|reflexivity].
Qed.

Lemma removelast_snoc {A} (l : list A) x : List.removelast (l ++ [x]) = l.
Proof.
  apply List.removelast_last.
Qed.

Lemma last_snoc {A} (l : list A) x d : List.last (l ++ [x]) d = x.
Proof.
  apply List.last_last.
Qed.

Lemma in_ancestors d : d ∈ ancestors d.
Proof.
  unfold ancestors. apply list_elem_of_fmap. exists (length (Path.parts d)). split.
  - destruct d as [r ps]. cbn [Path.root Path.parts]. now rewrite firstn_all.
  - apply list_elem_of_In, in_seq. lia.
Qed.

Lemma exists_after_mkdir d fs : d ∈ dirs (after_mkdir d fs).
Proof.
  unfold after_mkdir. cbn [dirs]. apply elem_of_app.
  destruct (decide (d ∈ dirs fs)) as [Hin|Hout]; [now left|right].
  apply filter_elem; [apply in_ancestors|]. now rewrite bool_decide_false.
Qed.

Lemma sorted_elem {A} (key : A -> string) (x : A) l : x ∈ sorted key l <-> x ∈ l.
Proof.
  now rewrite Enumerate.sorted_perm.
Qed.

Lemma length_omap_le {A B} (f : A -> option B) l : length (omap f l) <= length l.
Proof.
  induction l as [|x l IH]; [reflexivity|]. cbn [omap list_omap].
  destruct (f x); cbn [length]; lia.
Qed.

Lemma load_all_entries_eq fs :
  load_all_entries fs = (Ok (omap (loaded fs) (sorted sort_key (flagged_files fs))), fs).
Proof.
  unfold load_all_entries, mbind, IO_bind.
  rewrite Enumerate.get_all_desktop_files_eq. apply Enumerate.load_loop_eq.
Qed.

(** X13. An entry without a path whose name holds no slash is, once saved,
    among the files [get_all_desktop_files] lists, flagged as a file of the
    user, and the entry read from its text is among those
    [load_all_entries] returns. *)
Theorem new_entry_is_listed
  (e e1 : DesktopEntry.t) (p : Path.t) (fs fs1 : FS) :
  has_file_path e = None ->
  has_char "/" (DesktopEntry.name e) = false ->
  save e None fs = (Ok (p, e1), fs1) ->
  exists l es,
    get_all_desktop_files fs1 = (Ok l, fs1)
    /\ (p, true) ∈ l
    /\ load_all_entries fs1 = (Ok es, fs1)
    /\ DesktopEntry.from_string (DesktopEntry.to_string e) (Some (Path.to_string p)) ∈ es.
Proof.
  intros Hnone Hs (Hp & _ & -> & _)%save_ok_inv.
  unfold save_target in Hp. rewrite Hnone, new_target_parts in Hp by assumption.
  assert (Path.parent p = user_dir fs) as Hparent.
  { rewrite Hp. unfold Path.parent. cbn [Path.root Path.parts].
    rewrite removelast_snoc. now destruct (user_dir fs). }
  assert (Path.name p = filename_of e) as Hname.
  { rewrite Hp. unfold Path.name. cbn [Path.parts]. apply last_snoc. }
  assert ((p, true) ∈ flagged_files (after_save e p fs)) as Hin.
  { unfold flagged_files. apply elem_of_app. left.
    change (user_dir (after_save e p fs)) with (user_dir fs).
    assert (path_exists (user_dir fs) (after_save e p fs) = true) as ->.
    { unfold path_exists. apply orb_true_iff. left. apply bool_decide_eq_true.
      unfold after_save. cbn [dirs]. rewrite Hparent. apply exists_after_mkdir. }
    change (List.map ?f ?l) with (f <$> l). apply list_elem_of_fmap. exists p.
    split; [reflexivity|].
    unfold desktop_files_in. apply filter_elem.
    - change (List.map fst ?l) with (l.*1). apply Enumerate.lookup_file_is_Some.
      rewrite lookup_after_save. eauto.
    - rewrite Hparent, bool_decide_true by reflexivity. rewrite Hname.
      apply Serialize.endswith_spec. now eexists. }
  exists (sorted sort_key (flagged_files (after_save e p fs))),
    (omap (loaded (after_save e p fs)) (sorted sort_key (flagged_files (after_save e p fs)))).
  split; [apply Enumerate.get_all_desktop_files_eq|].
  split; [now apply sorted_elem|].
  split; [apply load_all_entries_eq|].
  apply list_elem_of_omap. exists (p, true). split; [now apply sorted_elem|].
  unfold loaded. cbn [fst]. now rewrite lookup_after_save.
Qed.

Lemma new_entry_is_listed_witness :
  exists p e1 fs1 l es,
    save (Examples.plain_entry "My App") None Examples.sample_fs = (Ok (p, e1), fs1)
    /\ get_all_desktop_files fs1 = (Ok l, fs1)
    /\ (p, true) ∈ l
    /\ load_all_entries fs1 = (Ok es, fs1)
    /\ DesktopEntry.from_string (DesktopEntry.to_string (Examples.plain_entry "My App"))
         (Some (Path.to_string p)) ∈ es.
Proof.
  destruct (save (Examples.plain_entry "My App") None Examples.sample_fs)
    as [[[p e1]|x] fs1] eqn:E; [|vm_compute in E; discriminate].
  destruct (new_entry_is_listed (Examples.plain_entry "My App") e1 p Examples.sample_fs fs1
              eq_refl eq_refl E) as (l & es & H).
  exists p, e1, fs1, l, es. split; [reflexivity|exact H].
Defined.

Lemma flagged_file_facts fs (p : Path.t) (b : bool) :
  (p, b) ∈ flagged_files fs ->
  endswith ".desktop" (Path.name p) = true
  /\ is_Some (lookup_file p fs)
  /\ Path.parent p = (if b then user_dir fs else system_dir)
  /\ path_exists (if b then user_dir fs else system_dir) fs = true.
Proof.
  intros Hin. unfold flagged_files in Hin.
  apply elem_of_app in Hin as [Hin|Hin].
  - change (List.map ?f ?l) with (f <$> l) in Hin.
    apply list_elem_of_fmap in Hin as (q & [= -> ->] & Hq).
    destruct (path_exists (user_dir fs) fs) eqn:Hex; [|now apply elem_of_nil in Hq].
    unfold desktop_files_in in Hq. apply list_elem_of_In, filter_In in Hq as [Hq Hc].
    apply andb_true_iff in Hc as [Hd%bool_decide_eq_true He].
    repeat split; try assumption.
    apply Enumerate.lookup_file_is_Some. now apply list_elem_of_In.
  - change (List.map ?f ?l) with (f <$> l) in Hin.
    apply list_elem_of_fmap in Hin as (q & [= -> ->] & Hq).
    destruct (path_exists system_dir fs) eqn:Hex; [|now apply elem_of_nil in Hq].
    unfold desktop_files_in in Hq. apply list_elem_of_In, filter_In in Hq as [Hq Hc].
    apply andb_true_iff in Hc as [Hd%bool_decide_eq_true He].
    repeat split; try assumption.
    apply Enumerate.lookup_file_is_Some. now apply list_elem_of_In.
Qed.

(** X14. Every file [get_all_desktop_files] lists has a name that ends
    with [.desktop], is an entry of the file system, and lies directly in
    the directory its flag tells: the user directory when flagged, the
    system directory when not; that directory exists.  The call does not
    raise and changes nothing. *)
Theorem listed_files_lie_in_their_directory (fs : FS) :
  exists l,
    get_all_desktop_files fs = (Ok l, fs)
    /\ forall (p : Path.t) (b : bool), (p, b) ∈ l ->
         endswith ".desktop" (Path.name p) = true
         /\ is_Some (lookup_file p fs)
         /\ Path.parent p = (if b then user_dir fs else system_dir)
         /\ path_exists (if b then user_dir fs else system_dir) fs = true.
Proof.
  exists (sorted sort_key (flagged_files fs)).
  split; [apply Enumerate.get_all_desktop_files_eq|].
  intros p b Hin. apply sorted_elem in Hin. now apply flagged_file_facts.
Qed.

Lemma listed_files_lie_in_their_directory_witness :
  exists l,
    get_all_desktop_files Examples.sample_fs = (Ok l, Examples.sample_fs)
    /\ (Examples.sample_user_dir // "b.desktop", true) ∈ l
    /\ Path.parent (Examples.sample_user_dir // "b.desktop") = user_dir Examples.sample_fs
    /\ is_Some (lookup_file (Examples.sample_user_dir // "b.desktop") Examples.sample_fs).
Proof.
  destruct (listed_files_lie_in_their_directory Examples.sample_fs) as (l & Hl & H).
  exists l. split; [exact Hl|].
  assert ((Examples.sample_user_dir // "b.desktop", true) ∈ l) as Hin.
  { pose proof Hl as Hl'. vm_compute in Hl'. injection Hl' as <-.
    apply list_elem_of_In. vm_compute. repeat (first [left; reflexivity|right]). }
  split; [exact Hin|].
  destruct (H _ _ Hin) as (_ & Hsome & Hparent & _). now split.
Defined.

(** X15. [load_all_entries] does not raise and changes nothing; it returns
    at most one entry for each file listed, and each entry it returns is
    read from the text of a listed file and carries the path of that file. *)
Theorem loaded_entries_come_from_files (fs : FS) :
  exists l es,
    get_all_desktop_files fs = (Ok l, fs)
    /\ load_all_entries fs = (Ok es, fs)
    /\ length es <= length l
    /\ forall e, e ∈ es ->
         exists p b content,
           (p, b) ∈ l
           /\ lookup_file p fs = Some (Text content)
           /\ e = DesktopEntry.from_string content (Some (Path.to_string p))
           /\ DesktopEntry.file_path e = Some (Path.to_string p).
Proof.
  exists (sorted sort_key (flagged_files fs)),
    (omap (loaded fs) (sorted sort_key (flagged_files fs))).
  split; [apply Enumerate.get_all_desktop_files_eq|].
  split; [apply load_all_entries_eq|].
  split; [apply length_omap_le|].
  intros e ([p b] & Hin & Hl)%list_elem_of_omap.
  unfold loaded in Hl. cbn [fst] in Hl.
  destruct (lookup_file p fs) as [[content|why]|] eqn:E; try discriminate.
  injection Hl as <-. exists p, b, content. now repeat split.
Qed.

Lemma loaded_entries_come_from_files_witness :
  exists l es,
    get_all_desktop_files Examples.sample_fs = (Ok l, Examples.sample_fs)
    /\ load_all_entries Examples.sample_fs = (Ok es, Examples.sample_fs)
    /\ length es <= length l
    /\ Forall (fun e => is_Some (DesktopEntry.file_path e)) es.
Proof.
  destruct (loaded_entries_come_from_files Examples.sample_fs)
    as (l & es & Hl & He & Hlen & H).
  exists l, es. repeat split; try assumption.
  apply Forall_forall. intros e Hin.
  destruct (H e Hin) as (p & b & content & _ & _ & _ & ->). eauto.
Defined.

End StoreMore.

(** ** The actions of the application *)
Module UiMore.
Import PyStr Spec SpecMore OS Store PyStrFacts.

(** *** [action_delete], case by case *)

Lemma load_entries_run app fs :
  App.load_entries app fs = (Ok (App.mk (reloaded fs) (App.current_entry app)), fs).
Proof.
  unfold App.load_entries, mbind, IO_bind. now rewrite StoreMore.load_all_entries_eq.
Qed.

Lemma unlink_run p fs :
  unlink p fs
  = match lookup_file p fs with
    | None => (Raise FileNotFoundError, fs)
    | Some _ =>
        if bool_decide (Path.parent p ∈ readonly fs) then (Raise PermissionError, fs)
        else (Ok tt, after_unlink p fs)
    end.
Proof.
  reflexivity.
Qed.

Lemma action_delete_run app e fp fs :
  App.current_entry app = Some e ->
  has_file_path e = Some fp ->
  App.action_delete app fs
  = if negb (path_exists (Path.of_string fp) fs) then (Ok (app, App.FileNotFound), fs)
    else if negb (contains ".local" (Path.to_string (Path.of_string fp)))
    then (Ok (app, App.CannotDeleteSystemEntries), fs)
    else match lookup_file (Path.of_string fp) fs with
         | None => (Ok (app, App.ErrorDeleting FileNotFoundError), fs)
         | Some _ =>
             if bool_decide (Path.parent (Path.of_string fp) ∈ readonly fs)
             then (Ok (app, App.ErrorDeleting PermissionError), fs)
             else (Ok (App.mk (reloaded (after_unlink (Path.of_string fp) fs)) None,
                       App.Deleted (Path.name (Path.of_string fp))),
                   after_unlink (Path.of_string fp) fs)
         end.
Proof.
  intros Hc Hfp. unfold App.action_delete. rewrite Hc, Hfp.
  unfold exists_, path_exists.
  repeat (unfold mbind, IO_bind, mret, IO_ret; cbv beta iota).
  destruct (bool_decide _ || bool_decide _); cbn [negb]; [|reflexivity].
  destruct (contains ".local" _); cbn [negb]; [|reflexivity].
  unfold try_except, mbind, IO_bind. rewrite unlink_run.
  destruct (lookup_file (Path.of_string fp) fs); [|reflexivity].
  destruct (bool_decide _); [reflexivity|].
  rewrite load_entries_run. reflexivity.
Qed.

Lemma action_delete_none app fs :
  (App.current_entry app = None
   \/ exists e, App.current_entry app = Some e /\ has_file_path e = None) ->
  App.action_delete app fs = (Ok (app, App.NoEntrySelected), fs).
Proof.
  unfold App.action_delete. intros [->|(e & -> & ->)]; reflexivity.
Qed.

(** X16. [action_delete] does not raise, and unless it reports a file as
    deleted it leaves the application and the file system as they are. *)
Theorem delete_changes_nothing_unless_deleted (app : App.t) (fs : FS) :
  exists app' n fs',
    App.action_delete app fs = (Ok (app', n), fs')
    /\ ((exists name, n = App.Deleted name) \/ (app' = app /\ fs' = fs)).
Proof.
  destruct (App.current_entry app) as [e|] eqn:Hc.
  2: { exists app, App.NoEntrySelected, fs. split; [|now right].
       apply action_delete_none. now left. }
  destruct (has_file_path e) as [fp|] eqn:Hfp.
  2: { exists app, App.NoEntrySelected, fs. split; [|now right].
       apply action_delete_none. right. now exists e. }
  rewrite (action_delete_run app e fp fs Hc Hfp).
  destruct (negb (path_exists (Path.of_string fp) fs)); [eexists _, _, _; split; [reflexivity|now right]|].
  destruct (negb (contains ".local" (Path.to_string (Path.of_string fp))));
    [eexists _, _, _; split; [reflexivity|now right]|].
  destruct (lookup_file (Path.of_string fp) fs);
    [|eexists _, _, _; split; [reflexivity|now right]].
  destruct (bool_decide _); eexists _, _, _; (split; [reflexivity|]); [now right|left; eauto].
Qed.

Lemma lookup_after_unlink p fs : lookup_file p (after_unlink p fs) = None.
Proof.
  unfold lookup_file, after_unlink. cbn [files].
  induction (files fs) as [|[q d] l IH]; [reflexivity|].
  cbn [List.filter fst]. destruct (bool_decide_reflect (q = p)) as [->|Hne]; cbn [negb].
  - exact IH.
  - cbn [List.find fst]. now rewrite bool_decide_false.
Qed.

Lemma lookup_after_unlink_other p q fs :
  q <> p -> lookup_file q (after_unlink p fs) = lookup_file q fs.
Proof.
  intros Hq. unfold lookup_file, after_unlink. cbn [files].
  induction (files fs) as [|[r d] l IH]; [reflexivity|].
  cbn [List.filter fst]. destruct (bool_decide_reflect (r = p)) as [->|Hne]; cbn [negb].
  - cbn [List.find fst]. now rewrite bool_decide_false.
  - cbn [List.find fst]. destruct (bool_decide (r = q)); [reflexivity|exact IH].
Qed.

(** X17. When [action_delete] reports a file as deleted, an entry with a
    path was selected, the text of the path contains [.local], the name
    reported is the last component of the path, nothing is left at the
    path while every other file is as before, no entry is selected any
    more, and the list of the application is the list of the entries a
    reload gives. *)
Theorem delete_removes_the_selected_file
  (app app' : App.t) (name : string) (fs fs' : FS) :
  App.action_delete app fs = (Ok (app', App.Deleted name), fs') ->
  exists e fp,
    App.current_entry app = Some e
    /\ has_file_path e = Some fp
    /\ contains ".local" (Path.to_string (Path.of_string fp)) = true
    /\ name = Path.name (Path.of_string fp)
    /\ is_Some (lookup_file (Path.of_string fp) fs)
    /\ lookup_file (Path.of_string fp) fs' = None
    /\ (forall q, q <> Path.of_string fp -> lookup_file q fs' = lookup_file q fs)
    /\ dirs fs' = dirs fs
    /\ App.current_entry app' = None
    /\ load_all_entries fs' = (Ok (App.entries app'), fs').
Proof.
  intros H.
  destruct (App.current_entry app) as [e|] eqn:Hc.
  2: { rewrite action_delete_none in H by now left. discriminate. }
  destruct (has_file_path e) as [fp|] eqn:Hfp.
  2: { rewrite action_delete_none in H by (right; now exists e). discriminate. }
  rewrite (action_delete_run app e fp fs Hc Hfp) in H.
  destruct (negb (path_exists (Path.of_string fp) fs)); [discriminate|].
  destruct (contains ".local" (Path.to_string (Path.of_string fp))) eqn:Hl;
    cbn [negb] in H; [|discriminate].
  destruct (lookup_file (Path.of_string fp) fs) as [d|] eqn:Hf; [|discriminate].
  destruct (bool_decide _); [discriminate|].
  injection H as <- <- <-.
  exists e, fp. repeat split; try reflexivity; try assumption.
  - eauto.
  - apply lookup_after_unlink.
  - intros q Hq. now apply lookup_after_unlink_other.
  - apply StoreMore.load_all_entries_eq.
Qed.

Lemma delete_removes_the_selected_file_witness :
  exists app' fs',
    App.action_delete (Examples.selected "/home/u/.local/share/applications/b.desktop")
      Examples.sample_fs = (Ok (app', App.Deleted "b.desktop"), fs')
    /\ lookup_file (Path.of_string "/home/u/.local/share/applications/b.desktop") fs' = None
    /\ App.current_entry app' = None.
Proof.
  destruct (App.action_delete (Examples.selected "/home/u/.local/share/applications/b.desktop")
              Examples.sample_fs) as [[[app' n]|x] fs'] eqn:E; [|vm_compute in E; discriminate].
  assert (n = App.Deleted "b.desktop") as ->.
  { pose proof E as E'. vm_compute in E'. now injection E' as _ <- _. }
  exists app', fs'. split; [reflexivity|].
  destruct (delete_removes_the_selected_file _ _ _ _ _ E)
    as (e & fp & Hc & Hfp & _ & _ & _ & Hnone & _ & _ & Hcur & _).
  injection Hc as <-. injection Hfp as <-. now split.
Defined.

(** *** The editor *)

(** X18. Loading an entry into the editor and taking the entry of the
    editor back, with the loaded entry as the existing one, gives the
    entry with its type replaced by [Application]; what the editor held
    before does not matter, and an editor loaded from the entry it gives
    holds what it held. *)
Theorem editor_keeps_all_but_type (ed : Editor.t) (e : DesktopEntry.t)
  (existing : option DesktopEntry.t) :
  Editor.get_entry (Editor.load_entry ed e) (Some e) = with_entry_type "Application" e
  /\ Editor.load_entry (Editor.clear ed) (Editor.get_entry ed existing) = ed.
Proof.
  split; [reflexivity|]. now destruct ed.
Qed.

(** *** [action_save], case by case *)








(** *** The list *)

Lemma prefix_spec p s : String.prefix p s = true <-> exists b, s = p +:+ b.
Proof.
  split; [|intros [b ->]; apply SaveDelete.prefix_app].
  revert s. induction p as [|c p IH]; intros s H.
  - exists s. now rewrite sapp_nil_l.
  - destruct s as [|d s]; [discriminate|]. cbn [String.prefix] in H.
    destruct (ascii_dec c d) as [<-|]; [|discriminate].
    destruct (IH s H) as [b ->]. exists b. now rewrite sapp_cons.
Qed.

Lemma contains_spec sub s : contains sub s = true <-> exists a b, s = a +:+ sub +:+ b.
Proof.
  split; [|intros (a & b & ->); apply SaveDelete.contains_app_intro].
  induction s as [|c s IH]; cbn [contains].
  - rewrite orb_false_r. intros [b Hb]%prefix_spec. exists "", b. now rewrite sapp_nil_l.
  - intros [[b Hb]%prefix_spec|(a & b & ->)%IH]%orb_true_iff.
    + exists "", b. now rewrite sapp_nil_l.
    + exists (String c a), b. now rewrite sapp_cons.
Qed.

Lemma contains_trans a b c :
  contains a b = true -> contains b c = true -> contains a c = true.
Proof.
  intros (x & y & ->)%contains_spec (u & v & ->)%contains_spec.
  apply contains_spec. exists (u +:+ x), (y +:+ v). now rewrite !sapp_assoc.
Qed.

Lemma contains_empty s : contains "" s = true.
Proof.
  destruct s; cbn [contains]; now rewrite SaveDelete.prefix_nil.
Qed.

Lemma filter_loop_filter q es :
  Ui.filter_loop q es
  = Ui.list_items (List.filter (fun e => contains q (lower (DesktopEntry.name e))) es).
Proof.
  induction es as [|e es IH]; [reflexivity|]. cbn [Ui.filter_loop List.filter].
  destruct q as [|c q].
  - rewrite contains_empty. cbn [truthy andb Ui.list_items]. now rewrite IH.
  - cbn [truthy andb].
    destruct (contains (String c q) (lower (DesktopEntry.name e)));
      cbn [negb Ui.list_items]; now rewrite IH.
Qed.

Lemma list_items_sublist es1 es2 :
  sublist es1 es2 -> sublist (Ui.list_items es1) (Ui.list_items es2).
Proof.
  induction 1; cbn [Ui.list_items]; now constructor.
Qed.

Lemma filter_all {A} (f : A -> bool) l : (forall x, f x = true) -> List.filter f l = l.
Proof.
  intros H. induction l as [|x l IH]; [reflexivity|]. cbn [List.filter]. now rewrite H, IH.
Qed.

(** X22. [filter_entries] shows, in their order, the items of the entries
    whose name contains the query, both taken in lower case; the test for
    an empty query changes nothing, and an empty query shows every
    entry. *)
Theorem filter_shows_matching_entries (app : App.t) (query : string) :
  Ui.filter_entries app query
  = Ui.list_items (List.filter (matches query) (App.entries app))
  /\ Ui.filter_entries app "" = Ui.list_items (App.entries app).
Proof.
  unfold Ui.filter_entries. cbv zeta. rewrite !filter_loop_filter. split; [reflexivity|].
  rewrite filter_all; [reflexivity|]. intros e. apply contains_empty.
Qed.

Lemma filter_narrows {A} (f g : A -> bool) l :
  (forall x, f x = true -> g x = true) -> sublist (List.filter f l) (List.filter g l).
Proof.
  intros H. induction l as [|x l IH]; [constructor|]. cbn [List.filter].
  destruct (f x) eqn:E.
  - rewrite (H x E). now constructor.
  - destruct (g x); [now constructor|exact IH].
Qed.

(** X23. A query that contains another, both taken in lower case, shows no
    more than the other: the items it shows are, in their order, among
    those the other shows. *)
Theorem longer_query_shows_less (app : App.t) (q1 q2 : string) :
  contains (lower q1) (lower q2) = true ->
  sublist (Ui.filter_entries app q2) (Ui.filter_entries app q1).
Proof.
  intros H. unfold Ui.filter_entries. cbv zeta.
  rewrite !filter_loop_filter. apply list_items_sublist.
  apply filter_narrows. intros e. now apply contains_trans.
Qed.

Lemma longer_query_shows_less_witness :
  sublist (Ui.filter_entries ExamplesMore.three_entries "FIL")
          (Ui.filter_entries ExamplesMore.three_entries "fi").
Proof.
  apply (longer_query_shows_less ExamplesMore.three_entries "fi" "FIL"). reflexivity.
Defined.

Lemma contains_truthy sub s :
  truthy sub = true -> contains sub s = true -> truthy s = true.
Proof.
  destruct sub, s; cbn; try discriminate; reflexivity.
Qed.

(** X24. Every entry loaded from a file listed as a file of the user is
    shown with the class [user-entry]. *)
Theorem user_files_are_shown_as_user (fs : FS) :
  exists l,
    get_all_desktop_files fs = (Ok l, fs)
    /\ forall p e, (p, true) ∈ l -> loaded fs (p, true) = Some e ->
         Ui.is_user e = true /\ Ui.classes (Ui.item_of e) = "user-entry".
Proof.
  exists (sorted sort_key (flagged_files fs)).
  split; [apply Enumerate.get_all_desktop_files_eq|].
  intros p e Hin Hl. apply StoreMore.sorted_elem in Hin.
  apply StoreMore.flagged_file_facts in Hin as (Hend & _ & Hparent & _).
  assert (Ui.is_user e = true) as Hu.
  { assert (Path.parts p <> []) as Hne.
    { intros Hnil. unfold Path.name in Hend. now rewrite Hnil in Hend. }
    assert (lies_under (user_dir fs) p = true) as Hunder.
    { destruct p as [r ps]. cbn [Path.parts] in Hne.
      rewrite (app_removelast_last "" Hne).
      unfold Path.parent in Hparent. cbn [Path.root Path.parts] in Hparent.
      rewrite <- Hparent. now apply SaveDelete.lies_under_app. }
    apply SaveDelete.under_user_dir_contains_local in Hunder.
    unfold loaded in Hl. cbn [fst] in Hl.
    destruct (lookup_file p fs) as [[content|?]|]; try discriminate.
    injection Hl as <-. unfold Ui.is_user, DesktopEntry.from_string.
    cbn [DesktopEntry.file_path]. rewrite Hunder.
    now rewrite (contains_truthy ".local" _ eq_refl Hunder). }
  split; [exact Hu|]. unfold Ui.item_of. cbn [Ui.classes]. now rewrite Hu.
Qed.

Lemma user_files_are_shown_as_user_witness :
  Ui.classes
    (Ui.item_of
       (DesktopEntry.from_string Examples.wrapped_text
          (Some "/home/u/.local/share/applications/b.desktop")))
  = "user-entry".
Proof.
  destruct (user_files_are_shown_as_user Examples.sample_fs) as (l & Hl & H).
  assert ((Examples.sample_user_dir // "b.desktop", true) ∈ l) as Hin.
  { pose proof Hl as Hl'. vm_compute in Hl'. injection Hl' as <-.
    apply list_elem_of_In. vm_compute. repeat (first [left; reflexivity|right]). }
  exact (proj2 (H (Examples.sample_user_dir // "b.desktop") _ Hin eq_refl)).
Defined.

End UiMore.
